(** * Survey cleaning, recommendation demo and regularization exercise

    A model of the three notebooks of the repository:
    - [term1/MMAI A1.ipynb]: the survey-cleaning script (a derived
      political-leaning column, a block of columns dropped);
    - the recommendation notebook (k-NN and SVD collaborative filtering);
    - [term2/Predictive_Modeling/Regularization Methods.ipynb].

    The pure parts (the remapping function, the column arithmetic, the
    merge) are functions over a small model of pandas frames.  The
    notebooks as wholes are straight-line sequences of library
    operations; the cells of the survey notebook are run one after
    the other over a kernel that holds the frame, the workbooks on disk
    and what was printed. *)

From stdpp Require Import base gmap list strings.
From Stdlib Require Import ZArith.

Local Open Scope string_scope.
Local Open Scope list_scope.
Local Open Scope Z_scope.

(** ** Python values and exceptions *)

(** The content of one cell of a frame, as the readers produce it:
    text, an integer, a finite float (mantissa and binary exponent), the
    missing-value marker NaN, or a timestamp. *)
Inductive cell : Type :=
  | CStr (s : string)
  | CInt (z : Z)
  | CFloat (mantissa exponent : Z)
  | CNaN
  | CTime (seconds : Z).

#[global] Instance cell_eq_dec : EqDecision cell.
Proof. solve_decision. Defined.

Inductive pyerr : Type :=
  | KeyError (key : string)
  | TypeError (msg : string)
  | ValueError (msg : string)
  | FileNotFoundError (path : string)
  | OtherError (class_name msg : string).

(** A computation either returns or raises. *)
Inductive result (A : Type) : Type :=
  | Ok (a : A)
  | Raise (e : pyerr).
Arguments Ok {A} a.
Arguments Raise {A} e.

(** Sequencing: the first exception ends the computation. *)
#[global] Instance result_bind : MBind result := λ A B f m,
  match m with
  | Ok a => f a
  | Raise e => Raise e
  end.
#[global] Instance result_ret : MRet result := λ A a, Ok a.

Fixpoint map_result {A B} (f : A → result B) (l : list A) : result (list B) :=
  match l with
  | [] => Ok []
  | a :: l' => b ← f a ; bs ← map_result f l' ; Ok (b :: bs)
  end.

(** ** Frames *)

(** A row handed to a row function is a Series: labels to values. *)
Abbreviation Series := (gmap string cell).

(** [row['label']]. *)
Definition series_getitem (row : Series) (label : string) : result cell :=
  match row !! label with
  | Some v => Ok v
  | None => Raise (KeyError label)
  end.

(** A frame: the column labels in order and the rows, each row holding
    one cell per column. *)
Record DataFrame : Type := mkFrame {
  columns : list string;
  rows : list (list cell)
}.

(** What the reading library guarantees of a frame it returns: labels
    are unique (duplicates are renamed on reading) and the table is
    rectangular. *)
Definition wf_frame (df : DataFrame) : Prop :=
  NoDup (columns df) ∧ Forall (λ r, length r = length (columns df)) (rows df).

Definition row_series (cols : list string) (r : list cell) : Series :=
  list_to_map (zip cols r).

(** Position of a label among the columns. *)
Fixpoint index_of (label : string) (cols : list string) : option nat :=
  match cols with
  | [] => None
  | c :: cols' =>
      if decide (c = label) then Some O else S <$> index_of label cols'
  end.

(** The value of column [label] in row [i]. *)
Definition frame_at (df : DataFrame) (i : nat) (label : string) : option cell :=
  r ← rows df !! i; k ← index_of label (columns df); r !! k.

(** What [df.apply(f, axis=1)] returns: the Series of the values of
    [f], or a copy of the frame. *)
Inductive applied (B : Type) : Type :=
  | AppliedSeries (values : list B)
  | AppliedFrame (copy : DataFrame).
Arguments AppliedSeries {B} values.
Arguments AppliedFrame {B} copy.

(** [df.apply(f, axis=1)]: [f] on every row in order; an exception of
    [f] is the exception of the call.  A frame without rows or without
    columns takes the library's path for empty frames: [f] is probed on
    a row of NaN; when the probe raises, the library drops the exception
    and returns a copy of the frame, otherwise every row gets the value
    of [f] on the empty Series. *)
Definition apply_rows {B} (f : Series → result B) (df : DataFrame)
  : result (applied B) :=
  if decide (rows df = [] ∨ columns df = []) then
    match f (row_series (columns df) (replicate (length (columns df)) CNaN)) with
    | Raise _ => Ok (AppliedFrame df)
    | Ok _ =>
        match rows df with
        | [] => Ok (AppliedSeries [])
        | _ => b ← f ∅; Ok (AppliedSeries (replicate (length (rows df)) b))
        end
    end
  else
    values ← map_result (λ r, f (row_series (columns df) r)) (rows df);
    Ok (AppliedSeries values).

(** [df[label] = values]: replaces the column when the label exists,
    appends it as last column otherwise. *)
Definition setitem (df : DataFrame) (label : string) (values : list cell)
  : result DataFrame :=
  if decide (length values = length (rows df)) then
    match index_of label (columns df) with
    | Some k =>
        Ok (mkFrame (columns df)
              (zip_with (λ r v, <[k := v]> r) (rows df) values))
    | None =>
        Ok (mkFrame (columns df ++ [label])
              (zip_with (λ r v, r ++ [v]) (rows df) values))
    end
  else Raise (ValueError "Length of values does not match length of index").

(** [index.get_loc(label)] gives an integer position only for a label
    that occurs once; for a repeated label it gives a slice or a mask. *)
Inductive loc : Type :=
  | LocInt (i : nat)
  | LocMany.

Fixpoint positions (label : string) (cols : list string) (base : nat) : list nat :=
  match cols with
  | [] => []
  | c :: cols' =>
      if decide (c = label) then base :: positions label cols' (S base)
      else positions label cols' (S base)
  end.

Definition get_loc (cols : list string) (label : string) : result loc :=
  match positions label cols O with
  | [] => Raise (KeyError label)
  | [i] => Ok (LocInt i)
  | _ => Ok LocMany
  end.

(** An integer is needed to add 1 to a location or to use it as a
    bound of a slice; anything else is a TypeError. *)
Definition loc_int (l : loc) : result nat :=
  match l with
  | LocInt i => Ok i
  | LocMany => Raise (TypeError "slice indices must be integers")
  end.

(** [l[start:stop]] for bounds that are not negative. *)
Definition slice {A} (l : list A) (start stop : nat) : list A :=
  take (stop - start)%nat (drop start l).

(** The entries of [l] at the positions where [mask] is true. *)
Fixpoint select {A} (mask : list bool) (l : list A) : list A :=
  match mask, l with
  | b :: mask', x :: l' => if b then x :: select mask' l' else select mask' l'
  | _, _ => []
  end.

(** [df.drop(labels, axis=1)]: every column whose label is listed goes;
    a listed label that is no column is a KeyError. *)
Definition drop_columns (labels : list string) (df : DataFrame)
  : result DataFrame :=
  match filter (λ l, l ∉ columns df) labels with
  | missing :: _ => Raise (KeyError missing)
  | [] =>
      let mask := (λ c, bool_decide (c ∉ labels)) <$> columns df in
      Ok (mkFrame (select mask (columns df)) (select mask <$> rows df))
  end.

(** Python's writing of a list of labels: ['a', 'b'] (labels without
    quotes or escapes). *)
Definition quoted (s : string) : string := "'" +:+ s +:+ "'".

Fixpoint comma_join (l : list string) : string :=
  match l with
  | [] => ""
  | [s] => s
  | s :: rest => s +:+ ", " +:+ comma_join rest
  end.

(** The labels of a merged frame: a label on both sides that is not
    the key gets the suffix [_x] on the left and [_y] on the right; the
    key column of the right frame is left out. *)
Definition left_label (rcols : list string) (on c : string) : string :=
  if decide (c ≠ on ∧ c ∈ rcols) then c +:+ "_x" else c.

Definition right_label (lcols : list string) (c : string) : string :=
  if decide (c ∈ lcols) then c +:+ "_y" else c.

Definition merge_columns (lcols rcols : list string) (on : string)
  : list string :=
  (left_label rcols on <$> lcols) ++
  (right_label lcols <$> filter (λ c, c ≠ on) rcols).

(** The renamed labels that repeat an earlier renamed label although
    the label itself repeats none: the duplicates the suffixes made. *)
Fixpoint suffix_duplicates (rename : string → string)
    (seen labels : list string) : list string :=
  match labels with
  | [] => []
  | c :: rest =>
      (if decide (rename c ∈ (rename <$> seen) ∧ c ∉ seen)
       then [rename c] else [])
      ++ suffix_duplicates rename (seen ++ [c]) rest
  end.

(** Numbers as keys compare by value: 1 joins 1.0. *)
Definition number_eq (m1 e1 m2 e2 : Z) : bool :=
  let e := Z.min e1 e2 in
  bool_decide (m1 * 2 ^ (e1 - e) = m2 * 2 ^ (e2 - e)).

(** An integer as float64: rounded to 53 bits, ties to even. *)
Definition to_float64 (z : Z) : Z :=
  let a := Z.abs z in
  if a <? 2 ^ 53 then z
  else
    let k := Z.log2 a - 52 in
    let q := a / 2 ^ k in
    let r := a mod 2 ^ k in
    let half := 2 ^ (k - 1) in
    let q' := if r <? half then q
              else if half <? r then q + 1
              else if Z.even q then q else q + 1 in
    Z.sgn z * q' * 2 ^ k.

(** Integers join integers as they are; an integer and a float are
    compared as float64. *)
Definition key_eq (a b : cell) : bool :=
  match a, b with
  | CInt x, CInt y => bool_decide (x = y)
  | CInt x, CFloat m e => number_eq (to_float64 x) 0 m e
  | CFloat m e, CInt y => number_eq m e (to_float64 y) 0
  | CFloat m1 e1, CFloat m2 e2 => number_eq m1 e1 m2 e2
  | _, _ => bool_decide (a = b)
  end.

(** Two rows join when their key cells are equal; NaN joins NaN. *)
Definition same_key (kl kr : nat) (l r : list cell) : bool :=
  match l !! kl, r !! kr with
  | Some a, Some b => key_eq a b
  | _, _ => false
  end.

(** The dtype of a key column that is not empty and holds cells of one
    kind: integers; numbers and NaN; text and NaN; timestamps.  A
    column of mixed cells has none here, and is not checked. *)
Inductive dtype : Type := Int64 | Float64 | Object | Datetime.

Definition dtype_name (d : dtype) : string :=
  match d with
  | Int64 => "int64"
  | Float64 => "float64"
  | Object => "object"
  | Datetime => "datetime64[ns]"
  end.

Definition is_int (c : cell) : bool :=
  match c with CInt _ => true | _ => false end.
Definition is_number (c : cell) : bool :=
  match c with CInt _ | CFloat _ _ | CNaN => true | _ => false end.
Definition is_text (c : cell) : bool :=
  match c with CStr _ | CNaN => true | _ => false end.
Definition is_time (c : cell) : bool :=
  match c with CTime _ => true | _ => false end.

Definition column_dtype (cells : list cell) : option dtype :=
  match cells with
  | [] => None
  | _ =>
      if forallb is_int cells then Some Int64
      else if forallb is_number cells then Some Float64
      else if forallb is_text cells then Some Object
      else if forallb is_time cells then Some Datetime
      else None
  end.

(** Key columns the merge accepts together: numbers with numbers, text
    with text, timestamps with timestamps. *)
Definition compatible (a b : dtype) : bool :=
  match a, b with
  | (Int64 | Float64), (Int64 | Float64) => true
  | Object, Object => true
  | Datetime, Datetime => true
  | _, _ => false
  end.

Definition key_cells (k : nat) (rows : list (list cell)) : list cell :=
  (λ r, default CNaN (r !! k)) <$> rows.

(** The MergeError for duplicate labels made by the suffixes; its
    message names them (here in the order of the labels). *)
Definition merge_error (dups : list string) : option pyerr :=
  match dups with
  | [] => None
  | _ => Some (OtherError "MergeError"
                 ("Passing 'suffixes' which cause duplicate columns {"
                  +:+ comma_join (quoted <$> dups) +:+ "} is not allowed."))
  end.

(** What [pd.merge] raises before it joins, if anything: a ValueError
    for key columns of two kinds, then a MergeError for duplicate
    labels made by the suffixes. *)
Definition merge_check (left right : DataFrame) (on : string) (kl kr : nat)
  : option pyerr :=
  let dups :=
    suffix_duplicates (left_label (columns right) on) [] (columns left) ++
    suffix_duplicates (right_label (columns left)) []
      (filter (λ c, c ≠ on) (columns right)) in
  match column_dtype (key_cells kl (rows left)),
        column_dtype (key_cells kr (rows right)) with
  | Some a, Some b =>
      if compatible a b then merge_error dups
      else
        Some (ValueError
                ("You are trying to merge on " +:+ dtype_name a +:+ " and "
                 +:+ dtype_name b +:+ " columns for key " +:+ quoted on
                 +:+ ". If you wish to proceed you should use pd.concat"))
  | _, _ => merge_error dups
  end.

(** [pd.merge(left, right, on=key)] with the default [how='inner']:
    every left row joined with every right row of the same key, the key
    column kept once.  The rows come in the order of the left rows, as
    pandas 2.2 gives them; earlier versions give the same rows in
    another order. *)
Definition merge (left right : DataFrame) (on : string) : result DataFrame :=
  match index_of on (columns left), index_of on (columns right) with
  | Some kl, Some kr =>
      match merge_check left right on kl kr with
      | Some e => Raise e
      | None =>
          Ok (mkFrame (merge_columns (columns left) (columns right) on)
                (l ← rows left;
                 (λ r, l ++ delete kr r)
                   <$> filter (λ r, same_key kl kr l r) (rows right)))
      end
  | _, _ => Raise (KeyError on)
  end.

(** A key column of integers. *)
Definition int_column (k : nat) (rows : list (list cell)) : Prop :=
  Forall (λ r, ∃ z, r !! k = Some (CInt z)) rows.

(** [df[label] = value] for a frame [value]: the frame must have
    exactly one column, which becomes the column [label]. *)
Definition setitem_frame (df : DataFrame) (label : string) (value : DataFrame)
  : result DataFrame :=
  match columns value with
  | [] => Raise (ValueError
                   ("Cannot set a DataFrame without columns to the column "
                    +:+ label))
  | [_] => setitem df label ((λ r, default CNaN (head r)) <$> rows value)
  | _ => Raise (ValueError
                  ("Cannot set a DataFrame with multiple columns to the single column "
                   +:+ label))
  end.

(** ** The survey notebook: the leaning index *)

Module Survey.

(** The dict literal of [calculate_political_leaning], entry by entry. *)
Definition mapping : gmap string Z :=
  <["DK/Refused/No lean" := 0]>
  (<["Refused either F_IDEO or F_PARTYSUM_FINAL" := 0]>
  (<["Liberal Dem/Lean" := 2]>
  (<["Moderate/Conservative Dem/Lean" := 1]>
  (<["Moderate/Liberal Rep/Lean" := -1]>
  (<["Conservative Rep/Lean" := -2]> ∅))))).

(** [d.get(key, default)] on a dict with text keys: a key that is not
    text equals none of them. *)
Definition dict_get (d : gmap string Z) (key : cell) (default : Z) : Z :=
  match key with
  | CStr s => match d !! s with Some z => z | None => default end
  | _ => default
  end.

Definition calculate_political_leaning (row : Series) : result Z :=
  leaning ← series_getitem row "F_PARTYSUMIDEO_FINAL" ;
  Ok (dict_get mapping leaning 0).

(** [df['political_leaning_index'] = df.apply(calculate_political_leaning, axis=1)] *)
Definition add_leaning_index (df : DataFrame) : result DataFrame :=
  a ← apply_rows calculate_political_leaning df ;
  match a with
  | AppliedSeries idx => setitem df "political_leaning_index" (CInt <$> idx)
  | AppliedFrame value => setitem_frame df "political_leaning_index" value
  end.

(** The table as the specification words it. *)
Definition leaning_table (v : cell) : Z :=
  match v with
  | CStr s =>
      if decide (s = "Conservative Rep/Lean") then -2
      else if decide (s = "Moderate/Liberal Rep/Lean") then -1
      else if decide (s = "Moderate/Conservative Dem/Lean") then 1
      else if decide (s = "Liberal Dem/Lean") then 2
      else 0
  | _ => 0
  end.

(** The four categories with a non-zero index. *)
Definition leaning_categories : list string :=
  [ "Conservative Rep/Lean"; "Moderate/Liberal Rep/Lean";
    "Moderate/Conservative Dem/Lean"; "Liberal Dem/Lean" ].

Definition start_col : string := "SMALG1_W99".
Definition end_col : string := "DCARS13_d_W99".

(** The cell that drops the block of unused question columns. *)
Definition drop_unused_block (df : DataFrame) : result DataFrame :=
  start_loc ← get_loc (columns df) start_col ;
  end_loc ← get_loc (columns df) end_col ;
  end_pos ← loc_int end_loc ;
  let end_index := S end_pos in
  start_index ← loc_int start_loc ;
  drop_columns (slice (columns df) start_index end_index) df.

(** A function of a row reads a field when changing that field alone
    can change what the function returns. *)
Definition reads_field {B} (f : Series → result B) (field : string) : Prop :=
  ∃ (row : Series) (v : cell), f (<[field := v]> row) ≠ f row.

Definition input_path : string :=
  "C:\Users\etjdr\OneDrive\Desktop\MMAI 5000 Wed 230-5  AI Fun\AI-Human-PewData.xlsx".
Definition output_path : string :=
  "C:\Users\etjdr\OneDrive\Desktop\MMAI 5000 Wed 230-5  AI Fun\Modified_AI-Human-PewData.xlsx".

(** [pd.read_excel(path)] over the workbooks on disk. *)
Definition read_excel (files : gmap string DataFrame) (path : string)
  : result DataFrame :=
  match files !! path with
  | Some df => Ok df
  | None => Raise (FileNotFoundError path)
  end.

End Survey.


(** ** The notebooks as scripts *)

(** Every notebook is a list of cells, every cell a straight line of
    statements: no branch, no loop, no handler.  Nested calls are
    written in evaluation order; ["_"] names the value of the statement
    before. *)
Module Script.

#[local] Unset Elimination Schemes.
Inductive pyexpr : Type :=
  | PInt (z : Z)
  | PDec (digits : Z) (places : nat)
  | PStr (s : string)
  | PBool (b : bool)
  | PName (x : string)
  | PList (items : list pyexpr)
  | PTuple (items : list pyexpr)
  | PDict (entries : list (string * pyexpr))
  | PSlice (start stop : pyexpr)
  | PLambda (param body : string).
#[local] Set Elimination Schemes.

(** [on.fn(args, kwargs)]; [on] is a module alias or a variable, and is
    absent for a plain function. *)
Record call : Type := mkCall {
  on : option string;
  fn : string;
  args : list pyexpr;
  kwargs : list (string * pyexpr)
}.

Inductive stmt : Type :=
  | Shell (cmd : string)
  | Import (what : string)
  | Def (name : string)
  | Assign (target : string) (e : pyexpr)
  | Call (target : option string) (c : call)
  | Attr (target : option string) (obj attr : string)
  | Linear (target : string) (constant : pyexpr) (terms : list (pyexpr * string)).

Abbreviation cell_code := (list stmt).
Abbreviation notebook := (list (list stmt)).

Definition print_ (x : string) : stmt :=
  Call None (mkCall None "print" [PName x] []).

(** *** term1/MMAI A1.ipynb *)

Definition survey_input : string := Survey.input_path.
Definition survey_output : string := Survey.output_path.

Definition survey_to_excel : stmt :=
  Call None (mkCall (Some "df") "to_excel" [PStr survey_output]
               [("index", PBool false)]).

Definition survey_notebook : notebook :=
  [ [ Import "import numpy as np";
      Import "import pandas as pd";
      Import "import seaborn as sns";
      Import "import matplotlib.pyplot as plt" ];
    [ Call (Some "df") (mkCall (Some "pd") "read_excel" [PStr survey_input] []) ];
    [ Call (Some "_") (mkCall (Some "df") "head" [] []); print_ "_" ];
    [ Def "calculate_political_leaning";
      Call (Some "_") (mkCall (Some "df") "apply"
                         [PName "calculate_political_leaning"] [("axis", PInt 1)]);
      Call None (mkCall (Some "df") "__setitem__"
                   [PStr "political_leaning_index"; PName "_"] []);
      Call (Some "_") (mkCall (Some "df") "__getitem__"
                         [PList [PStr "F_PARTYLN_FINAL"; PStr "F_PARTYSUM_FINAL";
                                 PStr "F_PARTYSUMIDEO_FINAL";
                                 PStr "political_leaning_index"]] []);
      Call (Some "_") (mkCall (Some "_") "head" [] []);
      print_ "_";
      survey_to_excel ];
    [ Assign "start_col" (PStr "SMALG1_W99");
      Assign "end_col" (PStr "DCARS13_d_W99");
      Attr (Some "_") "df" "columns";
      Call (Some "start_index") (mkCall (Some "_") "get_loc" [PName "start_col"] []);
      Attr (Some "_") "df" "columns";
      Call (Some "_") (mkCall (Some "_") "get_loc" [PName "end_col"] []);
      Linear "end_index" (PInt 1) [(PInt 1, "_")];
      Attr (Some "_") "df" "columns";
      Call (Some "_") (mkCall (Some "_") "__getitem__"
                         [PSlice (PName "start_index") (PName "end_index")] []);
      Call None (mkCall (Some "df") "drop" [PName "_"]
                   [("axis", PInt 1); ("inplace", PBool true)]);
      Attr (Some "_") "df" "columns";
      print_ "_";
      survey_to_excel ] ].

(** *** The recommendation notebook *)

Definition ratings_url : string :=
  "https://raw.githubusercontent.com/delinai/schulich_ds1/main/Datasets/ratings.csv".
Definition movies_url : string :=
  "https://raw.githubusercontent.com/delinai/schulich_ds1/main/Datasets/movies.csv".

Definition cross_validate_ (algo : string) : stmt :=
  Call None (mkCall None "cross_validate" [PName algo; PName "data"]
               [("measures", PList [PStr "RMSE"]); ("cv", PInt 5);
                ("verbose", PBool true)]).

Definition merge_ (target : string) : stmt :=
  Call (Some target) (mkCall (Some "pd") "merge"
                        [PName "ratings_df"; PName "movies_df"]
                        [("on", PStr "movieId")]).

Definition recommender_notebook : notebook :=
  [ [ Shell "pip install scikit-surprise" ];
    [ Import "import pandas as pd";
      Import "from surprise import Dataset, Reader";
      Import "from surprise import KNNBasic";
      Import "from surprise.model_selection import cross_validate" ];
    [ Call (Some "ratings_df") (mkCall (Some "pd") "read_csv" [PStr ratings_url] []);
      Call (Some "movies_df") (mkCall (Some "pd") "read_csv" [PStr movies_url] []);
      merge_ "data";
      Call (Some "reader") (mkCall None "Reader" []
                              [("rating_scale", PTuple [PInt 1; PInt 10])]);
      Call (Some "_") (mkCall (Some "data") "__getitem__"
                         [PList [PStr "userId"; PStr "movieId"; PStr "rating"]] []);
      Call (Some "data") (mkCall (Some "Dataset") "load_from_df"
                            [PName "_"; PName "reader"] []) ];
    [ Assign "sim_options"
        (PDict [("name", PStr "cosine"); ("user_based", PBool false)]);
      Call (Some "algo") (mkCall None "KNNBasic" []
                            [("sim_options", PName "sim_options")]) ];
    [ cross_validate_ "algo" ];
    [ Call (Some "_") (mkCall (Some "data") "build_full_trainset" [] []);
      Call None (mkCall (Some "algo") "fit" [PName "_"] []);
      Attr (Some "_") "algo" "sim";
      print_ "_" ];
    [ Call (Some "pred") (mkCall (Some "algo") "predict" []
                            [("uid", PInt 1); ("iid", PInt 10)]);
      Attr None "pred" "est" ];
    [ merge_ "df" ];
    [ Import "import seaborn as sns"; Import "import numpy as np" ];
    [ Import "from surprise.model_selection import train_test_split";
      Import "from surprise import accuracy" ];
    [ Call (Some "trainset, testset")
        (mkCall None "train_test_split" [PName "data"]
           [("test_size", PDec 25 2)]) ];
    [ Call (Some "algo") (mkCall None "KNNBasic" []
                            [("sim_options", PDict [("user_based", PBool false)])]);
      Call None (mkCall (Some "algo") "fit" [PName "trainset"] []);
      Call (Some "predictions") (mkCall (Some "algo") "test" [PName "testset"] []);
      Call None (mkCall (Some "accuracy") "rmse" [PName "predictions"] []) ];
    [ Import "from surprise import SVD" ];
    [ Call (Some "svd") (mkCall None "SVD" [] []);
      cross_validate_ "svd" ];
    [ Call (Some "trainset2") (mkCall (Some "data") "build_full_trainset" [] []);
      Call None (mkCall (Some "svd") "fit" [PName "trainset"] []) ];
    [ Call (Some "_") (mkCall (Some "df") "apply"
                         [PLambda "x" "svd.predict(x['userId'], x['movieId']).est"]
                         [("axis", PInt 1)]);
      Call None (mkCall (Some "df") "__setitem__"
                   [PStr "predicted_rating"; PName "_"] []) ] ].

(** *** term2/Predictive_Modeling/Regularization Methods.ipynb *)

Definition uniform_ (target : string) (low high : Z) : stmt :=
  Call (Some target) (mkCall (Some "np.random") "uniform"
                        [PInt low; PInt high; PInt 100] []).

(** [X[label] = pd.Series(value)] *)
Definition column_ (frame label value : string) : cell_code :=
  [ Call (Some "_") (mkCall (Some "pd") "Series" [PName value] []);
    Call None (mkCall (Some frame) "__setitem__" [PStr label; PName "_"] []) ].

Definition design_ (frame : string) (labels : list (string * string)) : cell_code :=
  [ Call (Some frame) (mkCall (Some "pd") "DataFrame" [] []);
    Call (Some "_") (mkCall (Some "np") "ones" [PInt 100] []) ] ++
  column_ frame "Constant" "_" ++
  (lv ← labels; column_ frame lv.1 lv.2).

Definition ols_ (frame : string) : cell_code :=
  [ Call (Some "_") (mkCall (Some "sm") "OLS" [PName "y"; PName frame] []);
    Call (Some "model_reg") (mkCall (Some "_") "fit" [] []);
    Call None (mkCall (Some "model_reg") "summary" [] []) ].

Definition penalized_ (estimator model : string) (alpha : Z) : cell_code :=
  [ Call (Some "_") (mkCall (Some "lm") estimator [] [("alpha", PInt alpha)]);
    Call (Some model) (mkCall (Some "_") "fit" [PName "X_ext"; PName "y"] []);
    Attr None model "coef_" ].

Definition first_six : list (string * string) :=
  [ ("X1", "x_1"); ("X2", "x_2"); ("X3", "x_3");
    ("X4", "x_4"); ("X5", "x_5"); ("X6", "x_6") ].

Definition regularization_notebook : notebook :=
  [ [ Import "import numpy as np";
      Import "import pandas as pd";
      Import "import matplotlib.pyplot as plt";
      Import "import statsmodels.api as sm";
      Import "from sklearn import linear_model as lm" ];
    [ uniform_ "x_1" 10 40; uniform_ "x_2" (-50) 20; uniform_ "x_3" 20 60;
      uniform_ "x_4" 10 40; uniform_ "x_5" (-50) 20; uniform_ "x_6" 20 60;
      Call (Some "epsilon") (mkCall (Some "np.random") "normal"
                               [PInt 0; PInt 10; PInt 100] []) ];
    [ Linear "y" (PInt (-30))
        [ (PDec 13 1, "x_1"); (PDec 16 1, "x_2"); (PDec 11 1, "x_3");
          (PDec 7 1, "x_4"); (PDec (-21) 1, "x_5"); (PDec (-9) 1, "x_6");
          (PInt 1, "epsilon") ] ];
    design_ "X_ols" first_six;
    ols_ "X_ols";
    [ uniform_ "x_7" 10 40; uniform_ "x_8" (-50) 20; uniform_ "x_9" 20 60;
      uniform_ "x_10" 10 40; uniform_ "x_11" (-50) 20; uniform_ "x_12" 20 60 ];
    design_ "X_ext"
      (first_six ++
       [ ("X7", "x_7"); ("X8", "x_8"); ("X9", "x_9");
         ("X10", "x_10"); ("X11", "x_11"); ("X12", "x_12") ]);
    ols_ "X_ext";
    Call (Some "X_ext") (mkCall (Some "X_ext") "drop" []
                           [("columns", PList [PStr "Constant"])])
      :: penalized_ "Lasso" "model_lasso" 1;
    penalized_ "Lasso" "model_lasso" 100;
    penalized_ "Ridge" "model_ridge" 10;
    penalized_ "Ridge" "model_ridge" 10000;
    [] ].

Definition repository : list notebook :=
  [ survey_notebook; recommender_notebook; regularization_notebook ].

(** The statements of a notebook in the order a full run executes them. *)
Definition statements (nb : notebook) : list stmt := concat nb.

(** *** External input and output *)

Inductive place : Type :=
  | LocalPath (path : string)
  | Url (url : string).

Inductive table_format : Type := Csv | Excel.

Inductive io_event : Type :=
  | ReadTable (format : table_format) (src : place)
  | WriteExcel (dst : place)
  | RunShell (cmd : string).

Definition place_of (s : string) : place :=
  if String.prefix "http://" s || String.prefix "https://" s
  then Url s else LocalPath s.

(** What a statement does outside the Python process, if anything:
    read a table, write a workbook, run a shell command. *)
Definition io_of (s : stmt) : option io_event :=
  match s with
  | Shell cmd => Some (RunShell cmd)
  | Call _ (mkCall (Some "pd") "read_csv" (PStr src :: _) _) =>
      Some (ReadTable Csv (place_of src))
  | Call _ (mkCall (Some "pd") "read_excel" (PStr src :: _) _) =>
      Some (ReadTable Excel (place_of src))
  | Call _ (mkCall (Some _) "to_excel" (PStr dst :: _) _) =>
      Some (WriteExcel (place_of dst))
  | _ => None
  end.

Definition io_trace (nb : notebook) : list io_event :=
  omap io_of (statements nb).

Definition is_read (e : io_event) : bool :=
  match e with ReadTable _ _ => true | _ => false end.

Definition is_local_excel_write (e : io_event) : bool :=
  match e with WriteExcel (LocalPath _) => true | _ => false end.

(** The interface the specification gives every notebook: it reads a
    table, it writes a workbook to a local path, and does nothing else
    outside. *)
Definition reads_and_writes_only (nb : notebook) : Prop :=
  (∃ e, e ∈ io_trace nb ∧ is_read e = true) ∧
  (∃ e, e ∈ io_trace nb ∧ is_local_excel_write e = true) ∧
  (∀ e, e ∈ io_trace nb → is_read e = true ∨ is_local_excel_write e = true).

(** *** Loading, modelling, reporting *)

Definition is_load (s : stmt) : bool :=
  match io_of s with Some (ReadTable _ _) => true | _ => false end.

Definition calls_fn (names : list string) (s : stmt) : bool :=
  match s with
  | Call _ c => bool_decide (fn c ∈ names)
  | _ => false
  end.

Definition is_model_call : stmt → bool :=
  calls_fn ["fit"; "predict"; "cross_validate"].

Definition is_print (s : stmt) : bool :=
  match s with
  | Call _ (mkCall None "print" _ _) => true
  | _ => false
  end.

(** A call into one of the plotting libraries the notebooks import. *)
Definition is_plot (s : stmt) : bool :=
  match s with
  | Call _ (mkCall (Some m) _ _ _) => bool_decide (m ∈ ["plt"; "sns"])
  | _ => false
  end.

Definition is_random_draw (s : stmt) : bool :=
  match s with
  | Call _ (mkCall (Some "np.random") _ _ _) => true
  | _ => false
  end.

(** The shape the specification gives every notebook: a dataset is
    loaded, a model function is called after the load, and results are
    printed or plotted. *)
Definition loads_models_reports (nb : notebook) : Prop :=
  (∃ i j s t, (i < j)%nat ∧
      statements nb !! i = Some s ∧ is_load s = true ∧
      statements nb !! j = Some t ∧ is_model_call t = true) ∧
  (∃ s, s ∈ statements nb ∧ (is_print s = true ∨ is_plot s = true)).

(** *** Hyperparameters *)

(** The latest assignment to a name; [env] holds the latest first. *)
Fixpoint assigned (x : string) (env : list (string * pyexpr)) : option pyexpr :=
  match env with
  | [] => None
  | (y, e) :: env' => if decide (y = x) then Some e else assigned x env'
  end.

(** The literal a name was last assigned, if the argument is a name. *)
Definition resolve (env : list (string * pyexpr)) (e : pyexpr) : pyexpr :=
  match e with
  | PName x => default e (assigned x env)
  | _ => e
  end.

Definition is_estimator (c : call) : bool :=
  bool_decide (fn c ∈ ["KNNBasic"; "SVD"; "Lasso"; "Ridge"]).

(** The estimator constructions of a run, each with the arguments it
    is given, names replaced by the literals assigned to them. *)
Fixpoint estimator_calls (env : list (string * pyexpr)) (prog : list stmt)
  : list call :=
  match prog with
  | [] => []
  | Assign x e :: rest => estimator_calls ((x, e) :: env) rest
  | Call _ c :: rest =>
      if is_estimator c then
        mkCall (on c) (fn c) (resolve env <$> args c)
          (prod_map id (resolve env) <$> kwargs c)
          :: estimator_calls env rest
      else estimator_calls env rest
  | _ :: rest => estimator_calls env rest
  end.

Definition repository_estimators : list call :=
  nb ← repository; estimator_calls [] (statements nb).

(** A call runs on the library's defaults when it passes nothing
    positionally and every keyword it passes has the default value. *)
Definition passes_defaults (defaults : string → string → option pyexpr)
    (c : call) : Prop :=
  args c = [] ∧ ∀ k v, (k, v) ∈ kwargs c → defaults (fn c) k = Some v.

(** The estimator constructions as the notebooks write them. *)
Definition knn_cosine : call :=
  mkCall None "KNNBasic" []
    [("sim_options",
      PDict [("name", PStr "cosine"); ("user_based", PBool false)])].
Definition knn_item : call :=
  mkCall None "KNNBasic" []
    [("sim_options", PDict [("user_based", PBool false)])].
Definition svd_plain : call := mkCall None "SVD" [] [].
Definition penalized (estimator : string) (alpha : Z) : call :=
  mkCall (Some "lm") estimator [] [("alpha", PInt alpha)].

End Script.

(** ** The cells around the claims *)

(** The message of the KeyError of a selection: the missing labels, or
    all the labels asked for when none of them is a column. *)
Definition not_in_index (missing : list string) : string :=
  "[" +:+ comma_join (quoted <$> missing) +:+ "] not in index".

Definition none_in_columns (labels : list string) : string :=
  "None of [Index([" +:+ comma_join (quoted <$> labels)
  +:+ "], dtype='object')] are in the [columns]".

Definition missing_message (labels missing : list string) : string :=
  if decide (length missing = length labels)
  then none_in_columns labels
  else not_in_index (remove_dups missing).

(** [df[labels]] for a list of labels: the listed columns in the listed
    order; when a listed label is no column, a KeyError that names the
    labels that are missing. *)
Definition getitem_columns (labels : list string) (df : DataFrame)
  : result DataFrame :=
  match filter (λ l, l ∉ columns df) labels with
  | [] =>
      Ok (mkFrame labels
            ((λ r, (λ c, default CNaN (row_series (columns df) r !! c)) <$> labels)
               <$> rows df))
  | missing => Raise (KeyError (missing_message labels missing))
  end.

(** [df.head()]: the first five rows. *)
Definition head_rows (df : DataFrame) : DataFrame :=
  mkFrame (columns df) (take 5 (rows df)).

(** *** The survey notebook, cell by cell *)

Module SurveyRun.

Inductive output : Type :=
  | OutFrame (df : DataFrame)
  | OutColumns (labels : list string).

(** The kernel between two cells: the variable [df], the workbooks on
    disk, what has been printed.  It outlives a cell that raises. *)
Record kernel : Type := mkKernel {
  df_var : option DataFrame;
  files : gmap string DataFrame;
  stdout : list output
}.

(** A step changes the kernel and returns or raises; what it changed
    before raising stays changed. *)
Definition step (A : Type) : Type := kernel → kernel * result A.

#[global] Instance step_bind : MBind step := λ A B f m k,
  match m k with
  | (k', Ok a) => f a k'
  | (k', Raise e) => (k', Raise e)
  end.
#[global] Instance step_ret : MRet step := λ A a k, (k, Ok a).

Definition lift {A} (r : result A) : step A := λ k, (k, r).

Definition get_df : step DataFrame := λ k,
  match df_var k with
  | Some df => (k, Ok df)
  | None => (k, Raise (OtherError "NameError" "name 'df' is not defined"))
  end.

Definition set_df (df : DataFrame) : step unit := λ k,
  (mkKernel (Some df) (files k) (stdout k), Ok ()).

Definition print_out (o : output) : step unit := λ k,
  (mkKernel (df_var k) (files k) (stdout k ++ [o]), Ok ()).

Definition read_excel (path : string) : step DataFrame := λ k,
  (k, Survey.read_excel (files k) path).

(** [df.to_excel(path, index=False)]; the write is taken to succeed. *)
Definition to_excel (df : DataFrame) (path : string) : step unit := λ k,
  (mkKernel (df_var k) (<[path := df]> (files k)) (stdout k), Ok ()).

Definition shown_columns : list string :=
  [ "F_PARTYLN_FINAL"; "F_PARTYSUM_FINAL"; "F_PARTYSUMIDEO_FINAL";
    "political_leaning_index" ].

Definition cell_read : step unit :=
  df ← read_excel Survey.input_path; set_df df.

Definition cell_head : step unit :=
  df ← get_df; print_out (OutFrame (head_rows df)).

Definition cell_index : step unit :=
  df ← get_df;
  df' ← lift (Survey.add_leaning_index df);
  set_df df';;
  view ← lift (getitem_columns shown_columns df');
  print_out (OutFrame (head_rows view));;
  to_excel df' Survey.output_path.

Definition cell_drop : step unit :=
  df ← get_df;
  df' ← lift (Survey.drop_unused_block df);
  set_df df';;
  print_out (OutColumns (columns df'));;
  to_excel df' Survey.output_path.

(** All cells in order; the run stops at the first cell that raises. *)
Definition run_all : step unit :=
  cell_read;; cell_head;; cell_index;; cell_drop.

(** A fresh kernel over the workbooks on disk. *)
Definition fresh (disk : gmap string DataFrame) : kernel :=
  mkKernel None disk [].



End SurveyRun.

(** *** The recommendation notebook: the training frame *)

Module Recommender.

Definition rating_columns : list string := ["userId"; "movieId"; "rating"].

(** [data = pd.merge(ratings_df, movies_df, on='movieId')] followed by
    [data[['userId','movieId','rating']]], the frame handed to
    [Dataset.load_from_df]. *)
Definition training_frame (ratings_df movies_df : DataFrame)
  : result DataFrame :=
  data ← merge ratings_df movies_df "movieId";
  getitem_columns rating_columns data.

(** Whether a rating row has a movie row of the same key. *)
Definition has_movie (kl kr : nat) (movies : list (list cell)) (l : list cell)
  : bool :=
  bool_decide (Exists (λ r, same_key kl kr l r = true) movies).

End Recommender.

(** *** The regularization notebook: the design frames *)

Module Design.

(** A Series on the index 0..m-1 laid on the index 0..n-1: missing
    positions are NaN, positions beyond are left out. *)
Definition align (n : nat) (values : list cell) : list cell :=
  take n values ++ replicate (n - length values)%nat CNaN.

(** [X[label] = pd.Series(values)]: a frame without rows first takes
    the index of the Series, its columns filled with NaN. *)
Definition set_series (df : DataFrame) (label : string) (values : list cell)
  : result DataFrame :=
  let base :=
    if decide (rows df = [])
    then replicate (length values) (replicate (length (columns df)) CNaN)
    else rows df in
  setitem (mkFrame (columns df) base) label (align (length base) values).

Fixpoint set_all (df : DataFrame) (series : list (string * list cell))
  : result DataFrame :=
  match series with
  | [] => Ok df
  | (label, values) :: rest =>
      df' ← set_series df label values; set_all df' rest
  end.

(** [X = pd.DataFrame()] and then one assignment per column. *)
Definition design (series : list (string * list cell)) : result DataFrame :=
  set_all (mkFrame [] []) series.

(** [np.ones(100)] *)
Definition ones : list cell := replicate 100 (CFloat 1 0).

(** The regressors in the order the notebook adds them; [x i] is the
    array [x_i]. *)
Definition regressors (x : nat → list cell) : list (string * list cell) :=
  [ ("X1", x 1%nat); ("X2", x 2%nat); ("X3", x 3%nat); ("X4", x 4%nat);
    ("X5", x 5%nat); ("X6", x 6%nat); ("X7", x 7%nat); ("X8", x 8%nat);
    ("X9", x 9%nat); ("X10", x 10%nat); ("X11", x 11%nat); ("X12", x 12%nat) ].

Definition X_ols (x : nat → list cell) : result DataFrame :=
  design (("Constant", ones) :: take 6 (regressors x)).

Definition X_ext (x : nat → list cell) : result DataFrame :=
  design (("Constant", ones) :: regressors x).

(** [X_ext = X_ext.drop(columns=['Constant'])], the frame the Lasso and
    Ridge fits are given. *)
Definition X_penalized (x : nat → list cell) : result DataFrame :=
  df ← X_ext x; drop_columns ["Constant"] df.

(** The frame of [n] rows with the given columns side by side. *)
Definition columns_frame (n : nat) (series : list (string * list cell))
  : DataFrame :=
  mkFrame (series.*1)
    ((λ i, (λ lv, default CNaN (lv.2 !! i)) <$> series) <$> seq 0 n).

Definition frame_of_columns (series : list (string * list cell)) : DataFrame :=
  match series with
  | [] => mkFrame [] []
  | (_, first) :: _ => columns_frame (length first) series
  end.

End Design.

(** *** Small frames to run the cells on *)

Module Samples.

Definition survey : DataFrame :=
  mkFrame
    [ "QKEY"; "SMALG1_W99"; "SMALG2_W99"; "DCARS13_d_W99";
      "F_PARTYLN_FINAL"; "F_PARTYSUM_FINAL"; "F_PARTYSUMIDEO_FINAL" ]
    [ [ CInt 100260; CStr "Yes"; CNaN; CStr "No";
        CNaN; CStr "Rep/Lean Rep"; CStr "Conservative Rep/Lean" ];
      [ CInt 100363; CNaN; CStr "No"; CNaN;
        CNaN; CStr "Dem/Lean Dem"; CStr "Moderate/Conservative Dem/Lean" ] ].

Definition survey_indexed : DataFrame :=
  mkFrame
    [ "QKEY"; "SMALG1_W99"; "SMALG2_W99"; "DCARS13_d_W99";
      "F_PARTYLN_FINAL"; "F_PARTYSUM_FINAL"; "F_PARTYSUMIDEO_FINAL";
      "political_leaning_index" ]
    [ [ CInt 100260; CStr "Yes"; CNaN; CStr "No";
        CNaN; CStr "Rep/Lean Rep"; CStr "Conservative Rep/Lean"; CInt (-2) ];
      [ CInt 100363; CNaN; CStr "No"; CNaN;
        CNaN; CStr "Dem/Lean Dem"; CStr "Moderate/Conservative Dem/Lean";
        CInt 1 ] ].

Definition survey_dropped : DataFrame :=
  mkFrame
    [ "QKEY"; "F_PARTYLN_FINAL"; "F_PARTYSUM_FINAL"; "F_PARTYSUMIDEO_FINAL";
      "political_leaning_index" ]
    [ [ CInt 100260; CNaN; CStr "Rep/Lean Rep"; CStr "Conservative Rep/Lean";
        CInt (-2) ];
      [ CInt 100363; CNaN; CStr "Dem/Lean Dem";
        CStr "Moderate/Conservative Dem/Lean"; CInt 1 ] ].

(** The block labels the other way round. *)
Definition survey_reversed : DataFrame :=
  mkFrame
    [ "QKEY"; "DCARS13_d_W99"; "SMALG1_W99"; "F_PARTYSUMIDEO_FINAL" ]
    [ [ CInt 100260; CStr "No"; CStr "Yes"; CStr "Liberal Dem/Lean" ] ].

(** No column F_PARTYLN_FINAL. *)
Definition survey_no_party : DataFrame :=
  mkFrame
    [ "QKEY"; "SMALG1_W99"; "DCARS13_d_W99";
      "F_PARTYSUM_FINAL"; "F_PARTYSUMIDEO_FINAL" ]
    [ [ CInt 100260; CStr "Yes"; CStr "No";
        CStr "Rep/Lean Rep"; CStr "Conservative Rep/Lean" ] ].

(** No column SMALG1_W99. *)
Definition survey_no_block : DataFrame :=
  mkFrame
    [ "QKEY"; "DCARS13_d_W99";
      "F_PARTYLN_FINAL"; "F_PARTYSUM_FINAL"; "F_PARTYSUMIDEO_FINAL" ]
    [ [ CInt 100260; CStr "No";
        CNaN; CStr "Rep/Lean Rep"; CStr "Conservative Rep/Lean" ] ].

Definition ratings : DataFrame :=
  mkFrame ["userId"; "movieId"; "rating"; "timestamp"]
    [ [CInt 1; CInt 1; CFloat 4 0; CInt 964982703];
      [CInt 1; CInt 99; CFloat 5 0; CInt 964981247];
      [CInt 2; CInt 2; CFloat 3 0; CInt 964982224] ].

Definition movies : DataFrame :=
  mkFrame ["movieId"; "title"; "genres"]
    [ [CInt 1; CStr "Toy Story (1995)"; CStr "Adventure|Animation"];
      [CInt 2; CStr "Jumanji (1995)"; CStr "Adventure|Children"] ].

Definition merged : DataFrame :=
  mkFrame ["userId"; "movieId"; "rating"; "timestamp"; "title"; "genres"]
    [ [CInt 1; CInt 1; CFloat 4 0; CInt 964982703;
       CStr "Toy Story (1995)"; CStr "Adventure|Animation"];
      [CInt 2; CInt 2; CFloat 3 0; CInt 964982224;
       CStr "Jumanji (1995)"; CStr "Adventure|Children"] ].

(** Movies that carry a rating of their own. *)
Definition rated_movies : DataFrame :=
  mkFrame ["movieId"; "title"; "rating"]
    [ [CInt 1; CStr "Toy Story (1995)"; CFloat 39 (-3)] ].

Definition two_series : list (string * list cell) :=
  [ ("Constant", [CFloat 1 0; CFloat 1 0]); ("X1", [CFloat 21 0; CFloat 35 0]) ].

(** Arrays of 100 values, the same value throughout. *)
Definition flat_draws (i : nat) : list cell :=
  replicate 100 (CFloat (Z.of_nat i) 0).

End Samples.

(** * Properties *)

(** ** The leaning index *)

Section LeaningIndex.
Import Survey.

Lemma mapping_lookup (s : string) :
  mapping !! s =
    if decide (s = "DK/Refused/No lean") then Some 0
    else if decide (s = "Refused either F_IDEO or F_PARTYSUM_FINAL") then Some 0
    else if decide (s = "Liberal Dem/Lean") then Some 2
    else if decide (s = "Moderate/Conservative Dem/Lean") then Some 1
    else if decide (s = "Moderate/Liberal Rep/Lean") then Some (-1)
    else if decide (s = "Conservative Rep/Lean") then Some (-2)
    else None.
Proof.
  unfold mapping. rewrite !lookup_insert, lookup_empty.
  repeat case_decide; congruence.
Qed.

Lemma dict_get_table (v : cell) : dict_get mapping v 0 = leaning_table v.
Proof.
  destruct v as [s| | | |]; simpl; try reflexivity.
  rewrite mapping_lookup.
  repeat case_decide; subst; try reflexivity; try discriminate.
Qed.

Lemma calculate_lookup (row : Series) :
  calculate_political_leaning row =
    match row !! "F_PARTYSUMIDEO_FINAL" with
    | Some v => Ok (leaning_table v)
    | None => Raise (KeyError "F_PARTYSUMIDEO_FINAL")
    end.
Proof.
  unfold calculate_political_leaning, series_getitem.
  destruct (row !! "F_PARTYSUMIDEO_FINAL") as [v|]; simpl; [|reflexivity].
  by rewrite dict_get_table.
Qed.

Lemma leaning_table_range (v : cell) :
  leaning_table v ∈ [-2; -1; 0; 1; 2].
Proof.
  destruct v as [s| | | |]; simpl; repeat case_decide;
    rewrite !elem_of_cons; tauto.
Qed.

Lemma leaning_table_zero (v : cell) :
  leaning_table v = 0 ↔ ¬ ∃ s, v = CStr s ∧ s ∈ leaning_categories.
Proof.
  unfold leaning_categories. split.
  - intros Hz (s & -> & Hs). simpl in Hz.
    rewrite !elem_of_cons, elem_of_nil in Hs.
    repeat case_decide; try discriminate.
    destruct Hs as [?|[?|[?|[?|[]]]]]; done.
  - intros Hn. destruct v as [s| | | |]; simpl; try reflexivity.
    repeat case_decide; try reflexivity; exfalso; apply Hn; exists s;
      (split; [reflexivity | subst; rewrite !elem_of_cons; tauto]).
Qed.

End LeaningIndex.

(** ** Frames: rows as series, apply, setitem *)

Section FrameFacts.

Lemma index_of_Some label cols k :
  index_of label cols = Some k →
  cols !! k = Some label ∧ ∀ j c, (j < k)%nat → cols !! j = Some c → c ≠ label.
Proof.
  revert k. induction cols as [|c cols IH]; intros k; simpl; [done|].
  case_decide as Hc.
  - intros [= <-]. split; [by subst|]. intros j ? Hj. lia.
  - destruct (index_of label cols) as [k'|] eqn:Hk; [|done].
    intros [= <-]. destruct (IH k' eq_refl) as [H1 H2]. split; [done|].
    intros [|j] c' Hj; simpl; [by intros [= ->]|].
    apply H2. lia.
Qed.

Lemma index_of_None label cols : index_of label cols = None ↔ label ∉ cols.
Proof.
  induction cols as [|c cols IH]; simpl.
  - split; [intros _; apply not_elem_of_nil | done].
  - case_decide as Hc.
    + split; [done|]. intros []. subst. left.
    + rewrite not_elem_of_cons, <- IH.
      destruct (index_of label cols); simpl;
        (split; [intros ? | intros [? ?]]); done.
Qed.

Lemma index_of_elem label cols :
  label ∈ cols → ∃ k, index_of label cols = Some k ∧ (k < length cols)%nat.
Proof.
  intros Hin. destruct (index_of label cols) as [k|] eqn:Hk.
  - exists k. split; [done|]. apply index_of_Some in Hk as [Hk _].
    by apply lookup_lt_Some in Hk.
  - by apply index_of_None in Hk.
Qed.

Lemma index_of_app_fresh label cols :
  label ∉ cols → index_of label (cols ++ [label]) = Some (length cols).
Proof.
  induction cols as [|c cols IH]; simpl; intros Hn.
  - by rewrite decide_True.
  - apply not_elem_of_cons in Hn as [Hne Hn].
    rewrite decide_False by done. by rewrite IH.
Qed.

(** Looking a label up in the series of a row is reading the row at
    the position of the label. *)
Lemma row_series_lookup cols (r : list cell) label :
  row_series cols r !! label = (k ← index_of label cols; r !! k).
Proof.
  unfold row_series. revert r.
  induction cols as [|c cols IH]; intros r; simpl; [done|].
  destruct r as [|x r]; simpl.
  - rewrite lookup_empty. case_decide; [done|].
    by destruct (index_of label cols).
  - rewrite lookup_insert. case_decide as Hc; [done|].
    rewrite IH. by destruct (index_of label cols).
Qed.

Lemma map_result_Ok {A B} (f : A → result B) (g : A → B) (l : list A) :
  Forall (λ a, f a = Ok (g a)) l → map_result f l = Ok (g <$> l).
Proof.
  induction 1 as [|a l Ha _ IH]; simpl; [done|].
  by rewrite Ha, IH.
Qed.

(** The first row on which the row function raises decides the call. *)
Lemma map_result_Raise {A B} (f : A → result B) (pre post : list A) a e :
  Forall (λ a, ∃ b, f a = Ok b) pre → f a = Raise e →
  map_result f (pre ++ a :: post) = Raise e.
Proof.
  induction 1 as [|x pre [b Hx] _ IH]; simpl; intros Ha.
  - by rewrite Ha.
  - by rewrite Hx, IH.
Qed.

Lemma setitem_frame_at df label (values : list cell) :
  wf_frame df → length values = length (rows df) →
  ∃ df', setitem df label values = Ok df' ∧
    length (rows df') = length (rows df) ∧
    (∀ i, frame_at df' i label = values !! i) ∧
    (∀ i c, c ≠ label → frame_at df' i c = frame_at df i c).
Proof.
  intros [Hnd Hrect] Hlen. unfold setitem. rewrite decide_True by done.
  destruct (index_of label (columns df)) as [k|] eqn:Hk.
  - eexists. split; [done|]. simpl. split; [|split].
    + rewrite length_zip_with. lia.
    + intros i. unfold frame_at; simpl. rewrite Hk; simpl.
      rewrite lookup_zip_with.
      destruct (rows df !! i) as [r|] eqn:Hr; simpl.
      * destruct (values !! i) as [v|] eqn:Hv; simpl.
        -- apply list_lookup_insert_eq.
           rewrite Forall_lookup in Hrect. rewrite (Hrect _ _ Hr).
           apply index_of_Some in Hk as [Hk _]. by apply lookup_lt_Some in Hk.
        -- apply lookup_ge_None in Hv. apply lookup_lt_Some in Hr. lia.
      * apply lookup_ge_None in Hr. symmetry. apply lookup_ge_None. lia.
    + intros i c Hc. unfold frame_at; simpl. rewrite lookup_zip_with.
      destruct (rows df !! i) as [r|] eqn:Hr; simpl; [|done].
      destruct (values !! i) as [v|] eqn:Hv; simpl.
      * destruct (index_of c (columns df)) as [kc|] eqn:Hkc; simpl; [|done].
        apply list_lookup_insert_ne. intros <-.
        apply index_of_Some in Hk as [Hk _]. apply index_of_Some in Hkc as [Hkc _].
        congruence.
      * apply lookup_ge_None in Hv. apply lookup_lt_Some in Hr. lia.
  - apply index_of_None in Hk.
    eexists. split; [done|]. simpl. split; [|split].
    + rewrite length_zip_with. lia.
    + intros i. unfold frame_at; simpl. rewrite index_of_app_fresh by done; simpl.
      rewrite lookup_zip_with.
      destruct (rows df !! i) as [r|] eqn:Hr; simpl.
      * destruct (values !! i) as [v|] eqn:Hv; simpl.
        -- rewrite Forall_lookup in Hrect. rewrite <- (Hrect _ _ Hr).
           by rewrite lookup_app_r, Nat.sub_diag by lia.
        -- apply lookup_ge_None in Hv. apply lookup_lt_Some in Hr. lia.
      * apply lookup_ge_None in Hr. symmetry. apply lookup_ge_None. lia.
    + intros i c Hc. unfold frame_at; simpl. rewrite lookup_zip_with.
      destruct (rows df !! i) as [r|] eqn:Hr; simpl; [|done].
      destruct (values !! i) as [v|] eqn:Hv; simpl.
      * destruct (index_of c (columns df)) as [kc|] eqn:Hkc; simpl.
        -- assert (index_of c (columns df ++ [label]) = Some kc) as ->.
           { clear -Hkc. revert kc Hkc.
             induction (columns df) as [|x l IH]; intros kc; simpl; [done|].
             case_decide; [done|].
             destruct (index_of c l) eqn:E; [|done]. intros [= <-].
             by rewrite (IH _ eq_refl). }
           simpl. apply index_of_Some in Hkc as [Hkc _].
           apply lookup_lt_Some in Hkc.
           rewrite Forall_lookup in Hrect. rewrite lookup_app_l; [done|].
           rewrite (Hrect _ _ Hr). done.
        -- assert (index_of c (columns df ++ [label]) = None) as ->; [|done].
           apply index_of_None. apply index_of_None in Hkc.
           rewrite elem_of_app, list_elem_of_singleton. intros [?|?]; done.
      * apply lookup_ge_None in Hv. apply lookup_lt_Some in Hr. lia.
Qed.

End FrameFacts.

(** ** The derived column *)

Section DerivedColumn.
Import Survey.

Lemma apply_leaning df :
  wf_frame df → "F_PARTYSUMIDEO_FINAL" ∈ columns df →
  ∃ k, index_of "F_PARTYSUMIDEO_FINAL" (columns df) = Some k ∧
    apply_rows calculate_political_leaning df =
      Ok (AppliedSeries
            ((λ r, leaning_table (default CNaN (r !! k))) <$> rows df)) ∧
    Forall (λ r, is_Some (r !! k)) (rows df).
Proof.
  intros [_ Hrect] Hin.
  destruct (index_of_elem _ _ Hin) as (k & Hk & Hlt).
  exists k. split; [done|].
  assert (Forall (λ r : list cell, is_Some (r !! k)) (rows df)) as Hsome.
  { eapply Forall_impl; [exact Hrect|]. simpl. intros r Hr.
    apply lookup_lt_is_Some. lia. }
  split; [|done].
  unfold apply_rows. case_decide as Hempty.
  { assert (rows df = []) as Hrows.
    { destruct Hempty as [?|Hc]; [done|]. rewrite Hc in Hin.
      by apply elem_of_nil in Hin. }
    rewrite Hrows, calculate_lookup, row_series_lookup, Hk. simpl.
    rewrite lookup_replicate_2 by done. done. }
  erewrite map_result_Ok; [done|].
  eapply Forall_impl; [exact Hsome|]. simpl. intros r [v Hv].
  rewrite calculate_lookup, row_series_lookup, Hk; simpl.
  by rewrite Hv.
Qed.

(** C1: on a frame as read (unique labels, rectangular) that has the
    column F_PARTYSUMIDEO_FINAL, the cell that adds
    political_leaning_index succeeds, and in every row the new column
    holds the table applied to that row's F_PARTYSUMIDEO_FINAL; the
    function itself is the table applied to that one field.  The table
    sends the two Republican categories to -2 and -1, the two
    Democratic ones to 1 and 2, the two refused/no-lean categories to
    0, and every other value to 0. *)
Theorem leaning_index_is_table_lookup (df : DataFrame) :
  wf_frame df → "F_PARTYSUMIDEO_FINAL" ∈ columns df →
  (∃ df', add_leaning_index df = Ok df' ∧
     length (rows df') = length (rows df) ∧
     ∀ i, (i < length (rows df))%nat →
       ∃ v, frame_at df i "F_PARTYSUMIDEO_FINAL" = Some v ∧
            calculate_political_leaning
              (row_series (columns df) (default [] (rows df !! i)))
              = Ok (leaning_table v) ∧
            frame_at df' i "political_leaning_index"
              = Some (CInt (leaning_table v))) ∧
  (∀ v, dict_get mapping v 0 = leaning_table v) ∧
  leaning_table (CStr "Conservative Rep/Lean") = -2 ∧
  leaning_table (CStr "Moderate/Liberal Rep/Lean") = -1 ∧
  leaning_table (CStr "Moderate/Conservative Dem/Lean") = 1 ∧
  leaning_table (CStr "Liberal Dem/Lean") = 2 ∧
  leaning_table (CStr "Refused either F_IDEO or F_PARTYSUM_FINAL") = 0 ∧
  leaning_table (CStr "DK/Refused/No lean") = 0 ∧
  (∀ v, (∀ s, s ∈ dom mapping → v ≠ CStr s) → dict_get mapping v 0 = 0).
Proof.
  intros Hwf Hin. split; [|split; [exact dict_get_table|]].
  - destruct (apply_leaning df Hwf Hin) as (k & Hk & Happ & Hsome).
    unfold add_leaning_index. rewrite Happ. simpl.
    destruct (setitem_frame_at df "political_leaning_index"
      (CInt <$> ((λ r, leaning_table (default CNaN (r !! k))) <$> rows df)) Hwf)
      as (df' & Hset & Hlen & Hnew & _).
    { by rewrite !length_fmap. }
    exists df'. split; [done|]. split; [done|].
    intros i Hi. apply lookup_lt_is_Some in Hi as [r Hr].
    rewrite Forall_lookup in Hsome. destruct (Hsome _ _ Hr) as [v Hv].
    exists v. split; [|split].
    + unfold frame_at. rewrite Hr, Hk. simpl. done.
    + rewrite Hr; simpl. rewrite calculate_lookup, row_series_lookup, Hk; simpl.
      by rewrite Hv.
    + rewrite Hnew, !list_lookup_fmap, Hr. simpl. by rewrite Hv.
  - repeat split; try reflexivity.
    intros v Hv. destruct v as [s| | | |]; simpl; try reflexivity.
    destruct (mapping !! s) as [z|] eqn:Hs; [|done].
    exfalso. apply (Hv s); [|done]. apply elem_of_dom. eauto.
Qed.

Lemma leaning_index_is_table_lookup_witness :
  let df := mkFrame ["QKEY"; "F_PARTYSUMIDEO_FINAL"]
              [[CInt 100260; CStr "Conservative Rep/Lean"];
               [CInt 100314; CNaN]] in
  wf_frame df ∧ "F_PARTYSUMIDEO_FINAL" ∈ columns df ∧
  ∃ df', add_leaning_index df = Ok df' ∧
         frame_at df' 0 "political_leaning_index" = Some (CInt (-2)) ∧
         frame_at df' 1 "political_leaning_index" = Some (CInt 0).
Proof.
  intros df.
  assert (wf_frame df) as Hwf.
  { split; [compute_done | repeat constructor]. }
  assert ("F_PARTYSUMIDEO_FINAL" ∈ columns df) as Hin.
  { compute_done. }
  split; [exact Hwf|]. split; [exact Hin|].
  destruct (leaning_index_is_table_lookup df Hwf Hin) as [(df' & Hrun & _) _].
  exists df'. split; [exact Hrun|].
  vm_compute in Hrun. injection Hrun as <-.
  split; vm_compute; reflexivity.
Defined.

(** C8, as stated, fails: calculate_political_leaning does not return
    on every row; on a row without the field F_PARTYSUMIDEO_FINAL the
    lookup [row['F_PARTYSUMIDEO_FINAL']] raises KeyError. *)
Lemma calculate_not_total :
  ¬ ∀ row : Series, ∃ z, calculate_political_leaning row = Ok z.
Proof.
  intros Htotal. destruct (Htotal (<["QKEY" := CInt 100260]> ∅)) as [z Hz].
  vm_compute in Hz. discriminate Hz.
Qed.

(** C8, amended: on a row that carries the field F_PARTYSUMIDEO_FINAL,
    whatever the field holds (NaN, a number, an unseen category),
    calculate_political_leaning returns, without raising, one of
    -2, -1, 0, 1, 2, and the value is 0 exactly when the field is not
    one of the four categories with a non-zero index; on a row that
    does not carry the field it raises KeyError with the field's
    name. *)
Theorem calculate_total_on_field (row : Series) :
  match row !! "F_PARTYSUMIDEO_FINAL" with
  | Some v =>
      ∃ z, calculate_political_leaning row = Ok z ∧
           z ∈ [-2; -1; 0; 1; 2] ∧
           (z = 0 ↔ ¬ ∃ s, v = CStr s ∧ s ∈ leaning_categories)
  | None =>
      calculate_political_leaning row = Raise (KeyError "F_PARTYSUMIDEO_FINAL")
  end.
Proof.
  rewrite calculate_lookup.
  destruct (row !! "F_PARTYSUMIDEO_FINAL") as [v|]; [|done].
  exists (leaning_table v).
  split; [done|]. split; [apply leaning_table_range | apply leaning_table_zero].
Qed.

(** A malformed frame: without the column, the KeyError of the first
    row is the exception of the whole cell. *)
Lemma missing_column_raises (df : DataFrame) :
  rows df ≠ [] → columns df ≠ [] →
  "F_PARTYSUMIDEO_FINAL" ∉ columns df →
  add_leaning_index df = Raise (KeyError "F_PARTYSUMIDEO_FINAL").
Proof.
  intros Hrows Hcols Hnotin. unfold add_leaning_index, apply_rows.
  rewrite decide_False by (intros [?|?]; done).
  destruct (rows df) as [|r rs]; [done|]. simpl.
  rewrite calculate_lookup, row_series_lookup.
  apply index_of_None in Hnotin. by rewrite Hnotin.
Qed.

(** The frame stays as the reader made it: labels unique, table
    rectangular. *)
Lemma setitem_wf df label (values : list cell) df' :
  wf_frame df → setitem df label values = Ok df' → wf_frame df'.
Proof.
  intros [Hnd Hrect]. unfold setitem. case_decide as Hlen; [|done].
  destruct (index_of label (columns df)) as [k|] eqn:Hk; intros [= <-];
    split; simpl.
  - done.
  - eapply Forall_zip_with_fst; [exact Hrect|].
    apply Forall_true. intros v r Hr. by rewrite length_insert.
  - apply index_of_None in Hk. apply NoDup_app. split; [done|].
    split; [|apply NoDup_singleton].
    intros c Hc Hc'. apply list_elem_of_singleton in Hc'. by subst.
  - eapply Forall_zip_with_fst; [exact Hrect|].
    apply Forall_true. intros v r Hr. rewrite !length_app, Hr. done.
Qed.

Lemma add_leaning_index_wf df df' :
  wf_frame df → "F_PARTYSUMIDEO_FINAL" ∈ columns df →
  add_leaning_index df = Ok df' → wf_frame df'.
Proof.
  intros Hwf Hin. unfold add_leaning_index.
  destruct (apply_leaning df Hwf Hin) as (k & _ & -> & _). simpl.
  by apply setitem_wf.
Qed.

End DerivedColumn.

(** ** Which fields the index depends on *)

Section Dependence.
Import Survey.

Lemma calculate_insert_other (row : Series) (field : string) (v : cell) :
  field ≠ "F_PARTYSUMIDEO_FINAL" →
  calculate_political_leaning (<[field := v]> row)
    = calculate_political_leaning row.
Proof.
  intros Hne. rewrite !calculate_lookup. by rewrite lookup_insert_ne.
Qed.

Lemma calculate_reads_only (field : string) :
  reads_field calculate_political_leaning field →
  field = "F_PARTYSUMIDEO_FINAL".
Proof.
  intros (row & v & Hdiff).
  destruct (decide (field = "F_PARTYSUMIDEO_FINAL")) as [|Hne]; [done|].
  exfalso. apply Hdiff. by apply calculate_insert_other.
Qed.

Lemma calculate_reads_ideo :
  reads_field calculate_political_leaning "F_PARTYSUMIDEO_FINAL".
Proof.
  exists ∅, (CStr "Liberal Dem/Lean").
  rewrite !calculate_lookup, lookup_insert_eq, lookup_empty. discriminate.
Qed.

(** C3, as stated, fails: there are no four distinct survey fields
    that calculate_political_leaning reads. *)
Lemma leaning_not_from_four_fields :
  ¬ ∃ f1 f2 f3 f4 : string,
      NoDup [f1; f2; f3; f4] ∧
      Forall (reads_field calculate_political_leaning) [f1; f2; f3; f4].
Proof.
  intros (f1 & f2 & f3 & f4 & Hnd & Hall).
  apply Forall_cons in Hall as [H1 Hall].
  apply Forall_cons in Hall as [H2 _].
  apply calculate_reads_only in H1, H2. subst.
  apply NoDup_cons in Hnd as [Hnotin _]. apply Hnotin. left.
Qed.

(** C3, amended: the index is computed from one survey field of each
    response row: calculate_political_leaning reads
    F_PARTYSUMIDEO_FINAL and no other field. *)
Theorem leaning_from_one_field (field : string) :
  reads_field calculate_political_leaning field ↔
  field = "F_PARTYSUMIDEO_FINAL".
Proof.
  split; [apply calculate_reads_only|].
  intros ->. apply calculate_reads_ideo.
Qed.

(** C10: two rows that agree on F_PARTYSUMIDEO_FINAL get the same
    result from calculate_political_leaning, whatever their other
    fields hold; in particular the result is the same after
    F_PARTYLN_FINAL or F_PARTYSUM_FINAL is set to any value. *)
Theorem leaning_noninterference (row1 row2 : Series) :
  row1 !! "F_PARTYSUMIDEO_FINAL" = row2 !! "F_PARTYSUMIDEO_FINAL" →
  calculate_political_leaning row1 = calculate_political_leaning row2 ∧
  (∀ v, calculate_political_leaning (<["F_PARTYLN_FINAL" := v]> row1)
          = calculate_political_leaning row2) ∧
  (∀ v, calculate_political_leaning (<["F_PARTYSUM_FINAL" := v]> row1)
          = calculate_political_leaning row2).
Proof.
  intros Hagree.
  assert (calculate_political_leaning row1 = calculate_political_leaning row2)
    as Heq by (by rewrite !calculate_lookup, Hagree).
  split; [done|].
  split; intros v; rewrite calculate_insert_other; done.
Qed.

Lemma leaning_noninterference_witness :
  let row1 : Series :=
    <["F_PARTYLN_FINAL" := CStr "The Republican Party"]>
    (<["F_PARTYSUM_FINAL" := CStr "Rep/Lean Rep"]>
    (<["F_PARTYSUMIDEO_FINAL" := CStr "Liberal Dem/Lean"]> ∅)) in
  let row2 : Series :=
    <["F_PARTYLN_FINAL" := CNaN]>
    (<["F_PARTYSUM_FINAL" := CStr "Dem/Lean Dem"]>
    (<["F_PARTYSUMIDEO_FINAL" := CStr "Liberal Dem/Lean"]> ∅)) in
  row1 !! "F_PARTYSUMIDEO_FINAL" = row2 !! "F_PARTYSUMIDEO_FINAL" ∧
  calculate_political_leaning row1 = calculate_political_leaning row2.
Proof.
  intros row1 row2.
  assert (row1 !! "F_PARTYSUMIDEO_FINAL" = row2 !! "F_PARTYSUMIDEO_FINAL")
    as Hagree by (vm_compute; reflexivity).
  split; [exact Hagree|].
  exact (proj1 (leaning_noninterference row1 row2 Hagree)).
Defined.

End Dependence.

(** ** Dropping the block of unused columns *)

Section DropBlock.
Import Survey.

Lemma index_of_lookup cols k c :
  NoDup cols → cols !! k = Some c → index_of c cols = Some k.
Proof.
  intros Hnd Hk.
  destruct (index_of_elem c cols) as (k0 & Hk0 & _).
  { apply list_elem_of_lookup. eauto. }
  rewrite Hk0. f_equal.
  apply index_of_Some in Hk0 as [Hk0 _].
  exact (NoDup_lookup _ _ _ _ Hnd Hk0 Hk).
Qed.

Lemma positions_shift label cols base :
  positions label cols base = (λ p, (base + p)%nat) <$> positions label cols O.
Proof.
  revert base. induction cols as [|c cols IH]; intros base; simpl; [done|].
  rewrite (IH (S base)), (IH 1%nat). case_decide; simpl.
  - f_equal; [lia|]. rewrite <- list_fmap_compose.
    apply list_fmap_ext. intros _ p _. simpl. lia.
  - rewrite <- list_fmap_compose.
    apply list_fmap_ext. intros _ p _. simpl. lia.
Qed.

Lemma positions_absent label cols base :
  label ∉ cols → positions label cols base = [].
Proof.
  revert base. induction cols as [|c cols IH]; intros base Hn; simpl; [done|].
  apply not_elem_of_cons in Hn as [Hne Hn].
  rewrite decide_False by done. by apply IH.
Qed.

Lemma positions_unique label cols k :
  NoDup cols → cols !! k = Some label → positions label cols O = [k].
Proof.
  revert k. induction cols as [|c cols IH]; intros k Hnd Hk; [done|].
  apply NoDup_cons in Hnd as [Hnotin Hnd]. simpl.
  destruct k as [|k]; simpl in Hk.
  - injection Hk as ->. rewrite decide_True by done.
    by rewrite positions_absent.
  - rewrite decide_False.
    + rewrite positions_shift, (IH k) by done. done.
    + intros ->. apply Hnotin. apply list_elem_of_lookup. eauto.
Qed.

Lemma get_loc_unique cols label k :
  NoDup cols → cols !! k = Some label → get_loc cols label = Ok (LocInt k).
Proof.
  intros Hnd Hk. unfold get_loc. by rewrite (positions_unique _ _ k).
Qed.

Lemma select_app {A} (m1 m2 : list bool) (l : list A) :
  select (m1 ++ m2) l
    = select m1 (take (length m1) l) ++ select m2 (drop (length m1) l).
Proof.
  revert l. induction m1 as [|b m1 IH]; intros l; simpl.
  - by rewrite drop_0.
  - destruct l as [|x l]; simpl.
    + by destruct m2.
    + rewrite IH. by destruct b.
Qed.

Lemma select_true {A} (m : list bool) (l : list A) :
  Forall (λ b, b = true) m → select m l = take (length m) l.
Proof.
  intros Hm. revert l. induction Hm as [|b m -> _ IH]; intros l; simpl.
  - by rewrite take_0.
  - destruct l as [|x l]; simpl; [done|]. by rewrite IH.
Qed.

Lemma select_false {A} (m : list bool) (l : list A) :
  Forall (λ b, b = false) m → select m l = [].
Proof.
  intros Hm. revert l. induction Hm as [|b m -> _ IH]; intros l; simpl.
  - by destruct l.
  - destruct l as [|x l]; simpl; [done|]. by rewrite IH.
Qed.

Lemma filter_none {A} (P : A → Prop) `{!∀ x, Decision (P x)} (l : list A) :
  Forall (λ x, ¬ P x) l → filter P l = [].
Proof.
  induction 1 as [|x l Hx _ IH]; [done|].
  by rewrite filter_cons_False.
Qed.

(** Keeping what is outside a block of [n] labels from position [i]
    on, in a list of unique labels, cuts the positions [i .. i+n-1]
    out of any list that is no longer than the labels. *)
Lemma select_outside_block {A} (cols : list string) (i n : nat) (l : list A) :
  NoDup cols → (length l ≤ length cols)%nat →
  select ((λ c, bool_decide (c ∉ take n (drop i cols))) <$> cols) l
    = take i l ++ drop (i + n) l.
Proof.
  intros Hnd Hlen.
  set (block := take n (drop i cols)).
  assert (cols = take i cols ++ block ++ drop (i + n) cols) as Hsplit.
  { unfold block. rewrite <- (drop_drop cols n i).
    by rewrite take_drop, take_drop. }
  rewrite Hsplit at 1. rewrite Hsplit in Hnd.
  apply NoDup_app in Hnd as (_ & Hpre & Hnd).
  apply NoDup_app in Hnd as (_ & Hpost & _).
  rewrite !fmap_app, !select_app, !length_fmap.
  rewrite (select_true _ (take _ l)), length_fmap.
  2:{ apply Forall_fmap, Forall_forall. intros c Hc. simpl.
      apply bool_decide_eq_true. intros Hb.
      apply (Hpre c Hc). apply elem_of_app. by left. }
  rewrite (select_false _ (take _ (drop _ l))).
  2:{ apply Forall_fmap, Forall_forall. intros c Hc. simpl.
      apply bool_decide_eq_false. by intros []. }
  rewrite (select_true _ (drop _ (drop _ l))), length_fmap.
  2:{ apply Forall_fmap, Forall_forall. intros c Hc. simpl.
      apply bool_decide_eq_true. intros Hb. exact (Hpost c Hb Hc). }
  simpl. rewrite take_take, drop_drop. unfold block.
  rewrite !length_take, !length_drop, Nat.min_id.
  destruct (decide (i + n ≤ length cols)%nat) as [Hle|Hgt].
  - replace (i `min` length cols)%nat with i by lia.
    replace (n `min` (length cols - i))%nat with n by lia.
    f_equal. apply take_ge. rewrite length_drop. lia.
  - replace (length cols - (i + n))%nat with O by lia.
    rewrite take_0, (drop_ge l (i + n)) by lia. f_equal.
    destruct (decide (i ≤ length cols)%nat) as [Hi|Hi].
    + by replace (i `min` length cols)%nat with i by lia.
    + rewrite !take_ge by lia. done.
Qed.

Lemma drop_columns_block df (i n : nat) :
  wf_frame df →
  drop_columns (take n (drop i (columns df))) df =
    Ok (mkFrame (take i (columns df) ++ drop (i + n) (columns df))
          ((λ r, take i r ++ drop (i + n) r) <$> rows df)).
Proof.
  intros [Hnd Hrect]. unfold drop_columns.
  assert (filter (λ l, l ∉ columns df) (take n (drop i (columns df))) = [])
    as ->.
  { apply filter_none, Forall_forall.
    intros c Hc Hn. apply Hn.
    apply (subseteq_drop i (columns df)).
    by apply (subseteq_take n (drop i (columns df))). }
  f_equal. f_equal.
  - by apply select_outside_block.
  - apply Forall_fmap_ext_1.
    eapply Forall_impl; [exact Hrect|]. simpl. intros r Hr.
    apply select_outside_block; [done|lia].
Qed.

Lemma lookup_cut {A} (l : list A) (i n k : nat) :
  (i ≤ length l)%nat →
  (take i l ++ drop (i + n) l) !! k
    = l !! (if decide (k < i)%nat then k else (k + n)%nat).
Proof.
  intros Hi. case_decide as Hk.
  - rewrite lookup_app_l by (rewrite length_take; lia).
    by rewrite lookup_take_lt.
  - rewrite lookup_app_r by (rewrite length_take; lia).
    rewrite length_take, lookup_drop. f_equal. lia.
Qed.

Lemma cut_frame_at df (i n : nat) (r : nat) (c : string) :
  wf_frame df → (i ≤ length (columns df))%nat →
  c ∈ take i (columns df) ++ drop (i + n) (columns df) →
  frame_at (mkFrame (take i (columns df) ++ drop (i + n) (columns df))
              ((λ r, take i r ++ drop (i + n) r) <$> rows df)) r c
    = frame_at df r c.
Proof.
  intros [Hnd Hrect] Hi Hc. unfold frame_at; simpl.
  rewrite list_lookup_fmap.
  destruct (rows df !! r) as [row|] eqn:Hrow; simpl; [|done].
  rewrite Forall_lookup in Hrect. specialize (Hrect _ _ Hrow).
  apply list_elem_of_lookup in Hc as [k' Hk'].
  assert (NoDup (take i (columns df) ++ drop (i + n) (columns df))) as Hnd'.
  { rewrite <- (take_drop i (columns df)) in Hnd.
    apply NoDup_app in Hnd as (Ha & Hab & Hb).
    apply NoDup_app. split; [done|]. split.
    - intros x Hx Hin. apply (Hab x Hx).
      rewrite <- (drop_drop (columns df) n i) in Hin.
      revert Hin. apply subseteq_drop.
    - rewrite <- (drop_drop (columns df) n i).
      rewrite <- (take_drop n (drop i (columns df))) in Hb.
      by apply NoDup_app in Hb as (_ & _ & Hb). }
  rewrite (index_of_lookup _ _ _ Hnd' Hk'); simpl.
  rewrite lookup_cut in Hk' by done.
  rewrite (index_of_lookup _ _ _ Hnd Hk'); simpl.
  apply lookup_cut. lia.
Qed.

Lemma cut_wf df (i n : nat) :
  wf_frame df →
  wf_frame (mkFrame (take i (columns df) ++ drop (i + n) (columns df))
              ((λ r, take i r ++ drop (i + n) r) <$> rows df)).
Proof.
  intros [Hnd Hrect]. split; simpl.
  - rewrite <- (take_drop i (columns df)) in Hnd.
    apply NoDup_app in Hnd as (Ha & Hab & Hb).
    apply NoDup_app. split; [done|]. split.
    + intros x Hx Hin. apply (Hab x Hx).
      rewrite <- (drop_drop (columns df) n i) in Hin.
      revert Hin. apply subseteq_drop.
    + rewrite <- (drop_drop (columns df) n i).
      rewrite <- (take_drop n (drop i (columns df))) in Hb.
      by apply NoDup_app in Hb as (_ & _ & Hb).
  - apply Forall_fmap. eapply Forall_impl; [exact Hrect|]. simpl.
    intros r Hr. rewrite !length_app, !length_take, !length_drop. lia.
Qed.

Lemma cut_elem (cols : list string) (i n : nat) (c : string) :
  NoDup cols →
  c ∈ take i cols ++ drop (i + n) cols ↔
  c ∈ cols ∧ c ∉ take n (drop i cols).
Proof.
  intros Hnd.
  assert (cols = take i cols ++ take n (drop i cols) ++ drop (i + n) cols)
    as Hsplit.
  { rewrite <- (drop_drop cols n i). by rewrite take_drop, take_drop. }
  rewrite Hsplit in Hnd.
  apply NoDup_app in Hnd as (_ & Hpre & Hnd).
  apply NoDup_app in Hnd as (_ & Hpost & _).
  rewrite Hsplit at 3. rewrite !elem_of_app. split.
  - intros [Hc|Hc].
    + split; [by left|]. intros Hb. apply (Hpre c Hc).
      apply elem_of_app. by left.
    + split; [by right; right|]. intros Hb. exact (Hpost c Hb Hc).
  - intros [[Hc|[Hc|Hc]] Hn]; [by left|done|by right].
Qed.

(** C9: on the frame of the notebook (labels unique, table
    rectangular) in which SMALG1_W99 stands at position [i] and
    DCARS13_d_W99 at position [j], with [i ≤ j], the drop cell
    succeeds and removes exactly the columns at positions [i] to [j],
    both ends included: the labels that remain are those before [i]
    followed by those after [j], in their order; a label remains
    exactly when it was a column outside the block; every remaining
    column holds in every row the value it held; the number of rows
    is unchanged. *)
Theorem drop_removes_exact_block (df : DataFrame) (i j : nat) :
  wf_frame df →
  columns df !! i = Some start_col →
  columns df !! j = Some end_col →
  (i ≤ j)%nat →
  ∃ df', drop_unused_block df = Ok df' ∧
    columns df' = take i (columns df) ++ drop (S j) (columns df) ∧
    rows df' = (λ r, take i r ++ drop (S j) r) <$> rows df ∧
    length (rows df') = length (rows df) ∧
    (start_col ∉ columns df') ∧ (end_col ∉ columns df') ∧
    (∀ c, c ∈ columns df' ↔
          c ∈ columns df ∧ c ∉ slice (columns df) i (S j)) ∧
    (∀ c k, slice (columns df) i (S j) !! k = Some c ↔
            columns df !! (i + k)%nat = Some c ∧ (i + k ≤ j)%nat) ∧
    (∀ r c, c ∈ columns df' → frame_at df' r c = frame_at df r c) ∧
    wf_frame df'.
Proof.
  intros Hwf Hi Hj Hij. pose proof Hwf as [Hnd Hrect].
  unfold drop_unused_block.
  rewrite (get_loc_unique _ _ i Hnd Hi), (get_loc_unique _ _ j Hnd Hj).
  simpl. unfold slice.
  rewrite (drop_columns_block df i (S j - i) Hwf).
  replace (i + (S j - i))%nat with (S j) by lia.
  assert (i ≤ length (columns df))%nat as Hilen.
  { apply lookup_lt_Some in Hi. lia. }
  pose proof (cut_elem (columns df) i (S j - i)) as Helem.
  replace (i + (S j - i))%nat with (S j) in Helem by lia.
  eexists. split; [done|]. simpl.
  split; [done|]. split; [done|]. split; [by rewrite length_fmap|].
  split; [|split; [|split; [|split; [|split]]]].
  - rewrite Helem by done. intros [_ Hn]. apply Hn.
    apply elem_of_take. exists O. rewrite lookup_drop, Nat.add_0_r.
    split; [done|lia].
  - rewrite Helem by done. intros [_ Hn]. apply Hn.
    apply elem_of_take. exists (j - i)%nat. rewrite lookup_drop.
    replace (i + (j - i))%nat with j by lia. split; [done|lia].
  - intros c. by apply Helem.
  - intros c k. split.
    + intros Hk. apply lookup_take_Some in Hk as [Hk Hlt].
      rewrite lookup_drop in Hk. split; [done|lia].
    + intros [Hk Hle]. rewrite lookup_take_lt by lia.
      by rewrite lookup_drop.
  - intros r c Hc.
    pose proof (cut_frame_at df i (S j - i) r c Hwf Hilen) as Hat.
    replace (i + (S j - i))%nat with (S j) in Hat by lia.
    by apply Hat.
  - pose proof (cut_wf df i (S j - i) Hwf) as Hwf'.
    by replace (i + (S j - i))%nat with (S j) in Hwf' by lia.
Qed.

Lemma drop_removes_exact_block_witness :
  let df := mkFrame ["QKEY"; "SMALG1_W99"; "SMALG2_W99"; "DCARS13_d_W99";
                     "F_PARTYSUMIDEO_FINAL"]
              [[CInt 100260; CStr "Yes"; CNaN; CStr "No";
                CStr "Conservative Rep/Lean"];
               [CInt 100314; CNaN; CStr "No"; CNaN;
                CStr "Liberal Dem/Lean"]] in
  wf_frame df ∧
  columns df !! 1%nat = Some start_col ∧
  columns df !! 3%nat = Some end_col ∧
  drop_unused_block df =
    Ok (mkFrame ["QKEY"; "F_PARTYSUMIDEO_FINAL"]
          [[CInt 100260; CStr "Conservative Rep/Lean"];
           [CInt 100314; CStr "Liberal Dem/Lean"]]).
Proof.
  intros df.
  assert (wf_frame df) as Hwf
    by (split; [compute_done | repeat constructor]).
  assert (columns df !! 1%nat = Some start_col) as Hi by reflexivity.
  assert (columns df !! 3%nat = Some end_col) as Hj by reflexivity.
  split; [exact Hwf|]. split; [exact Hi|]. split; [exact Hj|].
  destruct (drop_removes_exact_block df 1 3 Hwf Hi Hj ltac:(lia))
    as (df' & Hrun & Hcols & Hrows & _).
  rewrite Hrun. f_equal. destruct df' as [cols' rows']. simpl in *.
  by rewrite Hcols, Hrows.
Defined.

End DropBlock.

(** ** Merging ratings with movies *)

Section Merge.

Lemma same_key_int kl kr (l r : list cell) :
  (∃ x, l !! kl = Some (CInt x)) → (∃ y, r !! kr = Some (CInt y)) →
  same_key kl kr l r = true ↔ l !! kl = r !! kr.
Proof.
  intros [x Hx] [y Hy]. unfold same_key. rewrite Hx, Hy. simpl.
  rewrite bool_decide_eq_true. split; [by intros -> | by intros [= ->]].
Qed.


(** A key column of integers has dtype int64, or none when empty. *)
Lemma int_column_dtype k (rows : list (list cell)) :
  int_column k rows →
  column_dtype (key_cells k rows) = None ∨
  column_dtype (key_cells k rows) = Some Int64.
Proof.
  intros Hint.
  assert (forallb is_int (key_cells k rows) = true) as Hall.
  { induction Hint as [|r rs [z Hz] _ IH]; simpl; [done|].
    rewrite Hz. exact IH. }
  unfold column_dtype.
  destruct (key_cells k rows) as [|c cells]; [by left|].
  right. by rewrite Hall.
Qed.

(** With integer keys on both sides the merge checks only the
    labels. *)
Lemma merge_check_int left right on kl kr :
  int_column kl (rows left) → int_column kr (rows right) →
  merge_check left right on kl kr =
    merge_error
      (suffix_duplicates (left_label (columns right) on) [] (columns left) ++
       suffix_duplicates (right_label (columns left)) []
         (filter (λ c, c ≠ on) (columns right))).
Proof.
  intros Hl Hr. unfold merge_check.
  destruct (int_column_dtype _ _ Hl) as [Hdl|Hdl],
    (int_column_dtype _ _ Hr) as [Hdr|Hdr];
    rewrite ?Hdl, ?Hdr; done.
Qed.

Lemma suffix_duplicates_plain (rename : string → string)
    (seen labels : list string) :
  (∀ c, c ∈ seen → rename c = c) → (∀ c, c ∈ labels → rename c = c) →
  suffix_duplicates rename seen labels = [].
Proof.
  revert seen. induction labels as [|c labels IH]; intros seen Hs Hl;
    simpl; [done|].
  rewrite decide_False.
  - simpl. apply IH.
    + intros c' [Hc'|Hc']%elem_of_app; [by apply Hs|].
      apply list_elem_of_singleton in Hc' as ->. apply Hl. left.
    + intros c' Hc'. apply Hl. by right.
  - intros [Hin Hnotin]. apply Hnotin.
    apply list_elem_of_fmap in Hin as (c' & Heq & Hc').
    rewrite (Hs c' Hc'), (Hl c) in Heq by left. by subst.
Qed.

(** When the key is the only label the two frames share, no label is
    renamed by the merge. *)
Lemma left_label_plain (lcols rcols : list string) on c :
  (∀ c, c ∈ lcols → c ∈ rcols → c = on) →
  c ∈ lcols → left_label rcols on c = c.
Proof.
  intros Hshared Hc. unfold left_label.
  case_decide as Hd; [|done]. destruct Hd as [Hne Hin].
  by specialize (Hshared c Hc Hin).
Qed.

Lemma right_label_plain (lcols rcols : list string) on c :
  (∀ c, c ∈ lcols → c ∈ rcols → c = on) →
  c ∈ filter (λ c, c ≠ on) rcols → right_label lcols c = c.
Proof.
  intros Hshared Hc. unfold right_label.
  case_decide as Hd; [|done].
  apply list_elem_of_filter in Hc as [Hne Hin].
  by specialize (Hshared c Hd Hin).
Qed.

Lemma merge_check_plain left right on kl kr :
  int_column kl (rows left) → int_column kr (rows right) →
  (∀ c, c ∈ columns left → c ∈ columns right → c = on) →
  merge_check left right on kl kr = None.
Proof.
  intros Hl Hr Hshared. rewrite merge_check_int by done.
  rewrite !suffix_duplicates_plain; try done; try (by intros c Hc%elem_of_nil).
  - intros c Hc. by eapply right_label_plain.
  - intros c Hc. by eapply left_label_plain.
Qed.

(** What the merge returns, when it returns. *)
Lemma merge_Ok left right on kl kr merged :
  index_of on (columns left) = Some kl →
  index_of on (columns right) = Some kr →
  merge left right on = Ok merged →
  merged =
    mkFrame (merge_columns (columns left) (columns right) on)
      (l ← rows left;
       (λ r, l ++ delete kr r)
         <$> filter (λ r, same_key kl kr l r) (rows right)).
Proof.
  intros Hkl Hkr. unfold merge. rewrite Hkl, Hkr.
  destruct (merge_check left right on kl kr); [done|]. by intros [= <-].
Qed.


Lemma filter_key_delete (cols : list string) on k :
  NoDup cols → index_of on cols = Some k →
  filter (λ c, c ≠ on) cols = delete k cols.
Proof.
  revert k. induction cols as [|c cols IH]; intros k Hnd; simpl; [done|].
  apply NoDup_cons in Hnd as [Hnotin Hnd].
  case_decide as Hc.
  - intros [= <-]. subst c. rewrite filter_cons_False by (by intros []).
    simpl. clear IH. induction cols as [|x cols IH]; [done|].
    apply not_elem_of_cons in Hnotin as [Hne Hnotin].
    apply NoDup_cons in Hnd as [_ Hnd].
    rewrite filter_cons_True by done. by rewrite IH.
  - destruct (index_of on cols) as [k'|] eqn:Hk'; [|done].
    intros [= <-]. rewrite filter_cons_True by done. simpl.
    by rewrite (IH k').
Qed.

Lemma index_of_app_l label (cols1 cols2 : list string) k :
  index_of label cols1 = Some k → index_of label (cols1 ++ cols2) = Some k.
Proof.
  revert k. induction cols1 as [|c cols1 IH]; intros k; simpl; [done|].
  case_decide; [done|].
  destruct (index_of label cols1) as [k'|]; [|done].
  intros [= <-]. by rewrite (IH k').
Qed.


Lemma merge_columns_plain (lcols rcols : list string) on kr :
  NoDup rcols → index_of on rcols = Some kr →
  (∀ c, c ∈ lcols → c ∈ rcols → c = on) →
  merge_columns lcols rcols on = lcols ++ delete kr rcols.
Proof.
  intros Hnd Hkr Hshared. unfold merge_columns.
  rewrite <- (filter_key_delete rcols on kr) by done. f_equal.
  - rewrite <- (list_fmap_id lcols) at 2.
    apply list_fmap_ext. intros _ c Hc%list_elem_of_lookup_2.
    by eapply left_label_plain.
  - rewrite <- (list_fmap_id (filter _ rcols)) at 2.
    apply list_fmap_ext. intros _ c Hc%list_elem_of_lookup_2.
    by eapply right_label_plain.
Qed.

(** The merge of frames with integer keys that share no label but the
    key returns. *)
Lemma merge_plain left right on kl kr :
  NoDup (columns right) →
  index_of on (columns left) = Some kl →
  index_of on (columns right) = Some kr →
  int_column kl (rows left) → int_column kr (rows right) →
  (∀ c, c ∈ columns left → c ∈ columns right → c = on) →
  merge left right on =
    Ok (mkFrame (columns left ++ delete kr (columns right))
          (l ← rows left;
           (λ r, l ++ delete kr r)
             <$> filter (λ r, same_key kl kr l r) (rows right))).
Proof.
  intros Hnd Hkl Hkr Hil Hir Hshared. unfold merge.
  rewrite Hkl, Hkr, merge_check_plain by done.
  by rewrite (merge_columns_plain _ _ _ kr).
Qed.

End Merge.

Section MergeJoin.


Lemma merged_row_left (lcols rcols' : list string) (l r' : list cell) c :
  length l = length lcols → c ∈ lcols →
  row_series (lcols ++ rcols') (l ++ r') !! c = row_series lcols l !! c.
Proof.
  intros Hlen Hc. rewrite !row_series_lookup.
  destruct (index_of_elem c lcols Hc) as (k & Hk & Hlt).
  rewrite (index_of_app_l _ _ _ _ Hk), Hk. simpl.
  apply lookup_app_l. lia.
Qed.




End MergeJoin.

(** ** The notebooks: hyperparameters, interfaces, shape, errors *)

Section Notebooks.
Import Script.

Lemma repository_estimators_eq :
  repository_estimators =
    [ knn_cosine; knn_item; svd_plain;
      penalized "Lasso" 1; penalized "Lasso" 100;
      penalized "Ridge" 10; penalized "Ridge" 10000 ].
Proof. vm_compute. reflexivity. Qed.

(** C2, as stated, fails: whatever the defaults of the libraries
    are, the estimator constructions of the notebooks do not all pass
    them (alpha is passed as 1 and as 100 to Lasso). *)
Lemma estimators_not_all_default :
  ¬ ∃ defaults : string → string → option pyexpr,
      Forall (passes_defaults defaults) repository_estimators.
Proof.
  intros (defaults & Hall).
  rewrite repository_estimators_eq in Hall.
  do 3 apply Forall_cons_1 in Hall as [_ Hall].
  apply Forall_cons_1 in Hall as [[_ H1] Hall].
  apply Forall_cons_1 in Hall as [[_ H100] _].
  specialize (H1 "alpha" (PInt 1) ltac:(left)).
  specialize (H100 "alpha" (PInt 100) ltac:(left)).
  simpl in H1, H100. congruence.
Qed.

(** C2, amended: each of the k-NN, SVD, Lasso and Ridge computations
    is invoked through library constructor calls, seven in all; the
    SVD call passes no argument and so runs on the library defaults,
    whatever they are; every other call passes a hyperparameter
    explicitly: sim_options (cosine and item-based, then item-based)
    to KNNBasic, alpha 1 and 100 to Lasso, alpha 10 and 10000 to
    Ridge. *)
Theorem estimators_as_invoked :
  repository_estimators =
    [ knn_cosine; knn_item; svd_plain;
      penalized "Lasso" 1; penalized "Lasso" 100;
      penalized "Ridge" 10; penalized "Ridge" 10000 ] ∧
  (∀ defaults, passes_defaults defaults svd_plain) ∧
  (∀ c, c ∈ repository_estimators → (kwargs c = [] ↔ c = svd_plain)).
Proof.
  split; [exact repository_estimators_eq|]. split.
  - intros defaults. split; [done|]. intros k v Hin.
    by apply elem_of_nil in Hin.
  - intros c. rewrite repository_estimators_eq.
    rewrite !elem_of_cons, elem_of_nil.
    intros [->|[->|[->|[->|[->|[->|[->|[]]]]]]]]; split; done.
Qed.

(** C4, as stated, fails: not every notebook of the repository reads
    a table and writes a workbook (the regularization notebook does
    neither). *)
Lemma not_every_notebook_reads_and_writes :
  ¬ ∀ nb, nb ∈ repository → reads_and_writes_only nb.
Proof.
  intros Hall.
  destruct (Hall regularization_notebook) as [(e & He & _) _].
  - unfold repository. set_solver.
  - vm_compute in He. by apply elem_of_nil in He.
Qed.

(** C4, amended: the survey notebook reads one Excel file from a
    local path and writes the modified workbook back to a local path
    (twice), and does nothing else outside; the recommendation
    notebook runs one pip install command and reads two CSV files
    from URLs, and writes no file; the regularization notebook reads
    and writes no file. *)
Theorem notebook_interfaces :
  io_trace survey_notebook =
    [ ReadTable Excel (LocalPath survey_input);
      WriteExcel (LocalPath survey_output);
      WriteExcel (LocalPath survey_output) ] ∧
  reads_and_writes_only survey_notebook ∧
  io_trace recommender_notebook =
    [ RunShell "pip install scikit-surprise";
      ReadTable Csv (Url ratings_url);
      ReadTable Csv (Url movies_url) ] ∧
  io_trace regularization_notebook = [].
Proof.
  assert (io_trace survey_notebook =
    [ ReadTable Excel (LocalPath survey_input);
      WriteExcel (LocalPath survey_output);
      WriteExcel (LocalPath survey_output) ]) as Hsurvey
    by (vm_compute; reflexivity).
  split; [exact Hsurvey|]. split; [|split; vm_compute; reflexivity].
  unfold reads_and_writes_only. rewrite Hsurvey. split; [|split].
  - eexists. split; [left|done].
  - eexists. split; [right; left|done].
  - intros e. rewrite !elem_of_cons, elem_of_nil.
    intros [->|[->|[->|[]]]]; simpl; auto.
Qed.

Lemma no_statement (P : stmt → bool) (nb : notebook) :
  filter (λ s, P s = true) (statements nb) = [] →
  ∀ s, s ∈ statements nb → P s = false.
Proof.
  intros Hnone s Hs. destruct (P s) eqn:HP; [|done].
  exfalso. eapply filter_nil_not_elem_of; [exact Hnone| |exact Hs]. done.
Qed.

(** C7, as stated, fails: not every notebook of the repository loads
    a dataset, then calls a model function, and prints or plots (the
    regularization notebook loads nothing). *)
Lemma not_every_notebook_loads :
  ¬ ∀ nb, nb ∈ repository → loads_models_reports nb.
Proof.
  intros Hall.
  destruct (Hall regularization_notebook)
    as [(i & j & s & t & _ & Hs & Hload & _) _].
  - unfold repository. set_solver.
  - apply list_elem_of_lookup_2 in Hs.
    rewrite (no_statement is_load regularization_notebook) in Hload;
      [done | vm_compute; reflexivity | done].
Qed.

(** C7, amended: the recommendation notebook loads a dataset from
    CSV, calls each of fit, predict and cross_validate after that
    load, and prints after it; the survey notebook loads a dataset
    from Excel and prints after the load, and calls none of fit,
    predict, cross_validate; the regularization notebook loads no
    dataset: it draws its data with np.random and calls fit after a
    draw, and calls no print.  No notebook calls a plotting
    function. *)
Theorem notebook_shapes :
  (∃ i s src,
     statements recommender_notebook !! i = Some s ∧
     io_of s = Some (ReadTable Csv src) ∧
     (∀ name, name ∈ ["fit"; "predict"; "cross_validate"] →
        ∃ j t, (i < j)%nat ∧
          statements recommender_notebook !! j = Some t ∧
          calls_fn [name] t = true) ∧
     (∃ j t, (i < j)%nat ∧
        statements recommender_notebook !! j = Some t ∧
        is_print t = true)) ∧
  ((∃ i j s t src, (i < j)%nat ∧
      statements survey_notebook !! i = Some s ∧
      io_of s = Some (ReadTable Excel src) ∧
      statements survey_notebook !! j = Some t ∧
      is_print t = true) ∧
   (∀ s, s ∈ statements survey_notebook → is_model_call s = false)) ∧
  ((∀ s, s ∈ statements regularization_notebook →
         is_load s = false ∧ is_print s = false) ∧
   (∃ i j s t, (i < j)%nat ∧
      statements regularization_notebook !! i = Some s ∧
      is_random_draw s = true ∧
      statements regularization_notebook !! j = Some t ∧
      calls_fn ["fit"] t = true)) ∧
  (∀ nb s, nb ∈ repository → s ∈ statements nb → is_plot s = false).
Proof.
  split; [|split; [|split]].
  - exists 6%nat. eexists _, _.
    split; [vm_compute; reflexivity|]. split; [reflexivity|]. split.
    + intros name Hname. rewrite !elem_of_cons, elem_of_nil in Hname.
      destruct Hname as [->|[->|[->|[]]]].
      * exists 15%nat. eexists. split; [lia|].
        split; [vm_compute; reflexivity | reflexivity].
      * exists 18%nat. eexists. split; [lia|].
        split; [vm_compute; reflexivity | reflexivity].
      * exists 13%nat. eexists. split; [lia|].
        split; [vm_compute; reflexivity | reflexivity].
    + exists 17%nat. eexists. split; [lia|].
      split; [vm_compute; reflexivity | reflexivity].
  - split.
    + exists 4%nat, 6%nat. eexists _, _, _. split; [lia|].
      split; [vm_compute; reflexivity|]. split; [reflexivity|].
      split; [vm_compute; reflexivity | reflexivity].
    + apply no_statement. vm_compute. reflexivity.
  - split.
    + intros s Hs. split; revert s Hs; apply no_statement;
        vm_compute; reflexivity.
    + exists 5%nat, 30%nat. eexists _, _. split; [lia|].
      split; [vm_compute; reflexivity|]. split; [reflexivity|].
      split; [vm_compute; reflexivity | reflexivity].
  - intros nb s Hnb. unfold repository in Hnb.
    rewrite !elem_of_cons, elem_of_nil in Hnb.
    destruct Hnb as [->|[->|[->|[]]]]; revert s;
      apply no_statement; vm_compute; reflexivity.
Qed.

End Notebooks.

(** ** The first exception raised and the result of the run *)

Section FirstError.






End FirstError.

(** * Further properties of the notebooks *)

(** ** The index cell: what it leaves alone, and running it again *)

Section IndexCell.
Import Survey.

(** Two frames as read with the same labels, as many rows and the same
    value under every label in every row are the same frame. *)
Lemma frame_ext (df1 df2 : DataFrame) :
  wf_frame df1 → wf_frame df2 →
  columns df1 = columns df2 →
  length (rows df1) = length (rows df2) →
  (∀ i c, c ∈ columns df1 → frame_at df1 i c = frame_at df2 i c) →
  df1 = df2.
Proof.
  destruct df1 as [cols rows1], df2 as [cols2 rows2]. simpl.
  intros [Hnd Hrect1] [_ Hrect2] <- Hlen Hat. simpl in *. f_equal.
  rewrite Forall_lookup in Hrect1. rewrite Forall_lookup in Hrect2.
  apply list_eq. intros i.
  destruct (rows1 !! i) as [r1|] eqn:H1, (rows2 !! i) as [r2|] eqn:H2.
  - f_equal. apply list_eq. intros k.
    destruct (cols !! k) as [c|] eqn:Hc.
    + specialize (Hat i c (list_elem_of_lookup_2 _ _ _ Hc)).
      unfold frame_at in Hat. simpl in Hat.
      rewrite H1, H2, (index_of_lookup _ _ _ Hnd Hc) in Hat. exact Hat.
    + apply lookup_ge_None in Hc.
      rewrite !(proj2 (lookup_ge_None _ _)); [done| |].
      * rewrite (Hrect2 _ _ H2). done.
      * rewrite (Hrect1 _ _ H1). done.
  - apply lookup_lt_Some in H1. apply lookup_ge_None in H2. lia.
  - apply lookup_lt_Some in H2. apply lookup_ge_None in H1. lia.
  - done.
Qed.

Lemma setitem_columns df label (values : list cell) df' :
  setitem df label values = Ok df' →
  columns df' =
    if decide (label ∈ columns df) then columns df else columns df ++ [label].
Proof.
  unfold setitem. case_decide; [|done].
  destruct (index_of label (columns df)) as [k|] eqn:Hk; intros [= <-]; simpl.
  - rewrite decide_True; [done|].
    apply index_of_Some in Hk as [Hk _]. by eapply list_elem_of_lookup_2.
  - apply index_of_None in Hk. by rewrite decide_False.
Qed.

(** What the index cell makes of a frame, label by label. *)
Lemma add_leaning_index_spec (df : DataFrame) :
  wf_frame df → "F_PARTYSUMIDEO_FINAL" ∈ columns df →
  ∃ df', add_leaning_index df = Ok df' ∧ wf_frame df' ∧
    length (rows df') = length (rows df) ∧
    columns df' =
      (if decide ("political_leaning_index" ∈ columns df)
       then columns df else columns df ++ ["political_leaning_index"]) ∧
    (∀ i, frame_at df' i "political_leaning_index"
          = (λ v, CInt (leaning_table v))
              <$> frame_at df i "F_PARTYSUMIDEO_FINAL") ∧
    (∀ i c, c ≠ "political_leaning_index" →
            frame_at df' i c = frame_at df i c).
Proof.
  intros Hwf Hin.
  destruct (apply_leaning df Hwf Hin) as (k & Hk & Happ & Hsome).
  unfold add_leaning_index. rewrite Happ. simpl.
  destruct (setitem_frame_at df "political_leaning_index"
    (CInt <$> ((λ r, leaning_table (default CNaN (r !! k))) <$> rows df)) Hwf)
    as (df' & Hset & Hlen & Hnew & Hother).
  { by rewrite !length_fmap. }
  exists df'. split; [done|]. split; [by eapply setitem_wf|].
  split; [done|]. split; [by eapply setitem_columns|]. split; [|done].
  intros i. rewrite Hnew, !list_lookup_fmap. unfold frame_at. rewrite Hk.
  destruct (rows df !! i) as [r|] eqn:Hr; simpl; [|done].
  rewrite Forall_lookup in Hsome. destruct (Hsome _ _ Hr) as [v Hv].
  by rewrite Hv.
Qed.

(** X1: the index cell leaves the rest of the frame alone: as many
    rows, every other label with the values it had in every row, the
    labels as before with political_leaning_index added last when it
    was no column; the frame stays rectangular with unique labels. *)
Theorem index_cell_frame_effect (df df' : DataFrame) :
  wf_frame df → "F_PARTYSUMIDEO_FINAL" ∈ columns df →
  add_leaning_index df = Ok df' →
  wf_frame df' ∧
  length (rows df') = length (rows df) ∧
  columns df' =
    (if decide ("political_leaning_index" ∈ columns df)
     then columns df else columns df ++ ["political_leaning_index"]) ∧
  (∀ i c, c ≠ "political_leaning_index" →
          frame_at df' i c = frame_at df i c).
Proof.
  intros Hwf Hin Hrun.
  destruct (add_leaning_index_spec df Hwf Hin)
    as (df1 & Hrun1 & Hwf1 & Hlen & Hcols & _ & Hother).
  rewrite Hrun in Hrun1. injection Hrun1 as <-. done.
Qed.

(** X2: running the index cell a second time changes nothing: when
    the cell has returned on a frame as read that has the column
    F_PARTYSUMIDEO_FINAL, it returns on the frame it produced and
    produces that frame again. *)
Theorem index_cell_idempotent (df df' : DataFrame) :
  wf_frame df → "F_PARTYSUMIDEO_FINAL" ∈ columns df →
  add_leaning_index df = Ok df' →
  add_leaning_index df' = Ok df'.
Proof.
  intros Hwf Hin Hrun.
  destruct (add_leaning_index_spec df Hwf Hin)
    as (df1 & Hrun1 & Hwf1 & Hlen1 & Hcols1 & Hnew1 & Hother1).
  rewrite Hrun in Hrun1. injection Hrun1 as <-.
  assert ("F_PARTYSUMIDEO_FINAL" ∈ columns df') as Hin'.
  { rewrite Hcols1. case_decide; [done|]. apply elem_of_app. by left. }
  assert ("political_leaning_index" ∈ columns df') as Hlab.
  { rewrite Hcols1. case_decide; [done|]. apply elem_of_app. right. left. }
  destruct (add_leaning_index_spec df' Hwf1 Hin')
    as (df2 & Hrun2 & Hwf2 & Hlen2 & Hcols2 & Hnew2 & Hother2).
  rewrite Hrun2. f_equal.
  rewrite decide_True in Hcols2 by done.
  apply frame_ext; try done.
  intros i c _.
  destruct (decide (c = "political_leaning_index")) as [->|Hne].
  - rewrite Hnew2, Hnew1. by rewrite Hother1.
  - by apply Hother2.
Qed.

End IndexCell.

(** ** The drop cell: failures, reversed labels, running it again *)

Section DropCell.
Import Survey.

Lemma get_loc_absent cols label :
  label ∉ cols → get_loc cols label = Raise (KeyError label).
Proof. intros Hn. unfold get_loc. by rewrite positions_absent. Qed.

Lemma elem_of_position (cols : list string) label :
  label ∈ cols → ∃ i, cols !! i = Some label.
Proof. intros Hin. by apply list_elem_of_lookup_1. Qed.

(** The frame the drop cell returns, for positions in either order. *)
Lemma drop_cell_result (df : DataFrame) (i j : nat) :
  wf_frame df →
  columns df !! i = Some start_col →
  columns df !! j = Some end_col →
  drop_unused_block df =
    Ok (mkFrame (take i (columns df) ++ drop (i + (S j - i)) (columns df))
          ((λ r, take i r ++ drop (i + (S j - i)) r) <$> rows df)).
Proof.
  intros Hwf Hi Hj. pose proof Hwf as [Hnd _].
  unfold drop_unused_block.
  rewrite (get_loc_unique _ _ i Hnd Hi), (get_loc_unique _ _ j Hnd Hj).
  simpl. unfold slice. by apply drop_columns_block.
Qed.

Lemma drop_cell_missing_start (df : DataFrame) :
  start_col ∉ columns df →
  drop_unused_block df = Raise (KeyError start_col).
Proof.
  intros Hn. unfold drop_unused_block.
  rewrite (get_loc_absent _ start_col Hn). reflexivity.
Qed.

Lemma drop_cell_missing_end (df : DataFrame) :
  wf_frame df → start_col ∈ columns df → end_col ∉ columns df →
  drop_unused_block df = Raise (KeyError end_col).
Proof.
  intros [Hnd _] [i Hi]%elem_of_position Hn. unfold drop_unused_block.
  rewrite (get_loc_unique _ _ i Hnd Hi). simpl.
  rewrite (get_loc_absent _ end_col Hn). reflexivity.
Qed.

(** X3: on a frame as read, the drop cell succeeds exactly when both
    labels are columns; when SMALG1_W99 is missing it raises the
    KeyError of SMALG1_W99, and when only DCARS13_d_W99 is missing the
    KeyError of DCARS13_d_W99. *)
Theorem drop_cell_outcome (df : DataFrame) :
  wf_frame df →
  ((∃ df', drop_unused_block df = Ok df') ↔
     start_col ∈ columns df ∧ end_col ∈ columns df) ∧
  (start_col ∉ columns df →
     drop_unused_block df = Raise (KeyError start_col)) ∧
  (start_col ∈ columns df → end_col ∉ columns df →
     drop_unused_block df = Raise (KeyError end_col)).
Proof.
  intros Hwf.
  split; [|split; [apply drop_cell_missing_start
                  |by apply drop_cell_missing_end]].
  split.
  - intros [df' Hrun].
    destruct (decide (start_col ∈ columns df)) as [Hs|Hs];
      [|by rewrite drop_cell_missing_start in Hrun].
    destruct (decide (end_col ∈ columns df)) as [He|He];
      [done | by rewrite drop_cell_missing_end in Hrun].
  - intros [[i Hi]%elem_of_position [j Hj]%elem_of_position].
    rewrite (drop_cell_result df i j) by done. eauto.
Qed.

(** X4: when DCARS13_d_W99 stands before SMALG1_W99 the slice of
    labels is empty: the drop cell succeeds and the frame is as it
    was. *)
Theorem drop_cell_reversed_labels (df : DataFrame) (i j : nat) :
  wf_frame df →
  columns df !! i = Some start_col →
  columns df !! j = Some end_col →
  (j < i)%nat →
  drop_unused_block df = Ok df.
Proof.
  intros Hwf Hi Hj Hlt. rewrite (drop_cell_result df i j) by done.
  replace (i + (S j - i))%nat with i by lia.
  rewrite take_drop. f_equal. destruct df as [cols rs]. simpl. f_equal.
  rewrite <- (list_fmap_id rs) at 2.
  apply list_fmap_ext. intros _ r _. apply take_drop.
Qed.

(** X5: the drop cell cannot be run twice: after it has dropped the
    block, SMALG1_W99 is no column any more and a second run raises its
    KeyError. *)
Theorem drop_cell_second_run (df df' : DataFrame) (i j : nat) :
  wf_frame df →
  columns df !! i = Some start_col →
  columns df !! j = Some end_col →
  (i ≤ j)%nat →
  drop_unused_block df = Ok df' →
  drop_unused_block df' = Raise (KeyError start_col).
Proof.
  intros Hwf Hi Hj Hij Hrun. pose proof Hwf as [Hnd _].
  rewrite (drop_cell_result df i j) in Hrun by done.
  injection Hrun as <-.
  unfold drop_unused_block. simpl.
  rewrite (get_loc_absent _ start_col); [reflexivity|].
  rewrite cut_elem by done. intros [_ Hn]. apply Hn.
  apply elem_of_take. exists O. rewrite lookup_drop, Nat.add_0_r.
  split; [done|lia].
Qed.

End DropCell.

(** ** The two cells one after the other *)

Section IndexThenDrop.
Import Survey.

Lemma index_cell_keeps_position (df df' : DataFrame) (i : nat) (c : string) :
  columns df' =
    (if decide ("political_leaning_index" ∈ columns df)
     then columns df else columns df ++ ["political_leaning_index"]) →
  columns df !! i = Some c → columns df' !! i = Some c.
Proof.
  intros -> Hi. case_decide; [done|]. by apply lookup_app_l_Some.
Qed.

(** X6: on a frame as read that has no column political_leaning_index
    yet, the index cell and then the drop cell both succeed; the frame
    that results has the labels outside the block followed by
    political_leaning_index, as many rows as before, the table value of
    each row's F_PARTYSUMIDEO_FINAL under political_leaning_index, and
    under every other remaining label the value of the frame read. *)
Theorem index_then_drop (df : DataFrame) (i j : nat) :
  wf_frame df →
  "F_PARTYSUMIDEO_FINAL" ∈ columns df →
  "political_leaning_index" ∉ columns df →
  columns df !! i = Some start_col →
  columns df !! j = Some end_col →
  (i ≤ j)%nat →
  ∃ df1 df2,
    add_leaning_index df = Ok df1 ∧
    drop_unused_block df1 = Ok df2 ∧
    columns df2 =
      take i (columns df) ++ drop (S j) (columns df)
        ++ ["political_leaning_index"] ∧
    length (rows df2) = length (rows df) ∧
    (∀ r, frame_at df2 r "political_leaning_index"
          = (λ v, CInt (leaning_table v))
              <$> frame_at df r "F_PARTYSUMIDEO_FINAL") ∧
    (∀ r c, c ∈ columns df2 → c ≠ "political_leaning_index" →
            frame_at df2 r c = frame_at df r c).
Proof.
  intros Hwf Hin Hfresh Hi Hj Hij.
  destruct (add_leaning_index_spec df Hwf Hin)
    as (df1 & Hrun1 & Hwf1 & Hlen1 & Hcols1 & Hnew1 & Hother1).
  pose proof (index_cell_keeps_position df df1 i _ Hcols1 Hi) as Hi1.
  pose proof (index_cell_keeps_position df df1 j _ Hcols1 Hj) as Hj1.
  rewrite decide_False in Hcols1 by done.
  exists df1. eexists. split; [done|].
  split; [by apply (drop_cell_result df1 i j)|].
  replace (i + (S j - i))%nat with (S j) by lia.
  assert (S j ≤ length (columns df))%nat as Hjlen.
  { apply lookup_lt_Some in Hj. lia. }
  assert (columns {|
      columns := take i (columns df1) ++ drop (S j) (columns df1);
      rows := (λ r, take i r ++ drop (S j) r) <$> rows df1 |}
    = take i (columns df) ++ drop (S j) (columns df)
        ++ ["political_leaning_index"]) as Hcols2.
  { simpl. rewrite Hcols1.
    rewrite take_app_le by lia. by rewrite drop_app_le by lia. }
  split; [exact Hcols2|]. simpl.
  split; [by rewrite length_fmap|].
  assert (∀ r c,
    c ∈ take i (columns df1) ++ drop (S j) (columns df1) →
    frame_at {|
      columns := take i (columns df1) ++ drop (S j) (columns df1);
      rows := (λ r, take i r ++ drop (S j) r) <$> rows df1 |} r c
    = frame_at df1 r c) as Hcut.
  { intros r c Hc.
    pose proof (cut_frame_at df1 i (S j - i) r c Hwf1) as Hat.
    replace (i + (S j - i))%nat with (S j) in Hat by lia.
    apply Hat; [|done]. rewrite Hcols1, length_app. lia. }
  split.
  - intros r. rewrite Hcut, Hnew1; [done|].
    simpl in Hcols2. rewrite Hcols2, !elem_of_app. right. right. left.
  - intros r c Hc Hne. rewrite Hcut by done. by apply Hother1.
Qed.

End IndexThenDrop.

(** ** The survey notebook run cell by cell *)

Section SurveyCells.
Import Survey SurveyRun.

Lemma getitem_columns_ok (labels : list string) (df : DataFrame) :
  Forall (λ l, l ∈ columns df) labels →
  getitem_columns labels df =
    Ok (mkFrame labels
          ((λ r, (λ c, default CNaN (row_series (columns df) r !! c)) <$> labels)
             <$> rows df)).
Proof.
  intros Hall. unfold getitem_columns. rewrite filter_none; [done|].
  eapply Forall_impl; [exact Hall|]. simpl. tauto.
Qed.

Lemma getitem_columns_missing (labels : list string) (df : DataFrame) :
  filter (λ l, l ∉ columns df) labels ≠ [] →
  getitem_columns labels df =
    Raise (KeyError
             (missing_message labels (filter (λ l, l ∉ columns df) labels))).
Proof.
  intros Hne. unfold getitem_columns.
  by destruct (filter (λ l, l ∉ columns df) labels).
Qed.

Lemma index_cell_keeps_labels (df df' : DataFrame) (c : string) :
  columns df' =
    (if decide ("political_leaning_index" ∈ columns df)
     then columns df else columns df ++ ["political_leaning_index"]) →
  c ≠ "political_leaning_index" →
  c ∈ columns df' ↔ c ∈ columns df.
Proof.
  intros -> Hne. case_decide; [done|].
  rewrite elem_of_app, list_elem_of_singleton. tauto.
Qed.

(** X7: a full run on a workbook as read that has the three party
    columns and the block from SMALG1_W99 to a later DCARS13_d_W99:
    every cell returns; [df] ends as the frame with the index added and
    the block dropped, that frame is the saved workbook, the workbook
    read is still on disk as it was, and three things were printed: the
    head of the frame read, the head of the four columns shown, the
    labels that remain. *)
Theorem run_all_succeeds (disk : gmap string DataFrame) (df0 : DataFrame)
    (i j : nat) :
  disk !! input_path = Some df0 →
  wf_frame df0 →
  Forall (λ l, l ∈ columns df0)
    ["F_PARTYLN_FINAL"; "F_PARTYSUM_FINAL"; "F_PARTYSUMIDEO_FINAL"] →
  columns df0 !! i = Some start_col →
  columns df0 !! j = Some end_col →
  (i ≤ j)%nat →
  ∃ df1 df2 view,
    add_leaning_index df0 = Ok df1 ∧
    getitem_columns shown_columns df1 = Ok view ∧
    drop_unused_block df1 = Ok df2 ∧
    run_all (fresh disk) =
      (mkKernel (Some df2) (<[output_path := df2]> disk)
         [ OutFrame (head_rows df0); OutFrame (head_rows view);
           OutColumns (columns df2) ],
       Ok ()) ∧
    (<[output_path := df2]> disk) !! input_path = Some df0.
Proof.
  intros Hdisk Hwf Hall Hi Hj Hij.
  apply Forall_cons in Hall as [Hln Hall].
  apply Forall_cons in Hall as [Hsum Hall].
  apply Forall_cons in Hall as [Hideo _].
  destruct (add_leaning_index_spec df0 Hwf Hideo)
    as (df1 & Hrun1 & Hwf1 & Hlen1 & Hcols1 & Hnew1 & Hother1).
  pose proof (index_cell_keeps_position df0 df1 i _ Hcols1 Hi) as Hi1.
  pose proof (index_cell_keeps_position df0 df1 j _ Hcols1 Hj) as Hj1.
  assert (Forall (λ l, l ∈ columns df1) shown_columns) as Hshown.
  { unfold shown_columns. repeat apply Forall_cons_2; [| | | |done].
    - by apply (index_cell_keeps_labels df0 df1).
    - by apply (index_cell_keeps_labels df0 df1).
    - by apply (index_cell_keeps_labels df0 df1).
    - rewrite Hcols1. case_decide; [done|]. apply elem_of_app. right. left. }
  pose proof (getitem_columns_ok _ _ Hshown) as Hview.
  pose proof (drop_cell_result df1 i j Hwf1 Hi1 Hj1) as Hdrop.
  eexists df1, _, _. split; [done|]. split; [exact Hview|].
  split; [exact Hdrop|]. split.
  - unfold run_all, cell_read, cell_head, cell_index, cell_drop, fresh.
    unfold mbind, step_bind, read_excel, Survey.read_excel, get_df, set_df,
      print_out, to_excel, lift. simpl.
    rewrite Hdisk. simpl. rewrite Hrun1. simpl. rewrite Hview. simpl.
    rewrite Hdrop. simpl. by rewrite insert_insert_eq.
  - rewrite lookup_insert_ne; [done|]. vm_compute. discriminate.
Qed.

(** X8: when the workbook has F_PARTYSUMIDEO_FINAL but not both
    F_PARTYLN_FINAL and F_PARTYSUM_FINAL, the run ends in the index
    cell, where the four columns are selected for printing, with the
    KeyError pandas raises there: its message lists the labels of the
    two that are missing, as in ['F_PARTYLN_FINAL'] not in index.
    The index is already in [df], the head of the frame read was
    printed, and no workbook was written. *)
Theorem run_all_fails_showing (disk : gmap string DataFrame) (df0 : DataFrame) :
  disk !! input_path = Some df0 →
  wf_frame df0 →
  "F_PARTYSUMIDEO_FINAL" ∈ columns df0 →
  "F_PARTYLN_FINAL" ∉ columns df0 ∨ "F_PARTYSUM_FINAL" ∉ columns df0 →
  ∃ df1,
    add_leaning_index df0 = Ok df1 ∧
    run_all (fresh disk) =
      (mkKernel (Some df1) disk [OutFrame (head_rows df0)],
       Raise (KeyError
                (not_in_index
                   (filter (λ l, l ∉ columns df0)
                      ["F_PARTYLN_FINAL"; "F_PARTYSUM_FINAL"])))).
Proof.
  intros Hdisk Hwf Hideo Hmissing.
  destruct (add_leaning_index_spec df0 Hwf Hideo)
    as (df1 & Hrun1 & Hwf1 & Hlen1 & Hcols1 & Hnew1 & Hother1).
  assert ("political_leaning_index" ∈ columns df1) as Hlab.
  { rewrite Hcols1. case_decide; [done|]. apply elem_of_app. right. left. }
  assert ("F_PARTYSUMIDEO_FINAL" ∈ columns df1) as Hideo1.
  { by apply (index_cell_keeps_labels df0 df1). }
  pose proof (index_cell_keeps_labels df0 df1 "F_PARTYLN_FINAL" Hcols1
                ltac:(done)) as Hln.
  pose proof (index_cell_keeps_labels df0 df1 "F_PARTYSUM_FINAL" Hcols1
                ltac:(done)) as Hsum.
  assert (filter (λ l, l ∉ columns df1) shown_columns
          = filter (λ l, l ∉ columns df0)
              ["F_PARTYLN_FINAL"; "F_PARTYSUM_FINAL"]) as Hmiss.
  { unfold shown_columns. rewrite !filter_cons, !filter_nil.
    repeat case_decide; first [reflexivity | exfalso; tauto]. }
  assert (getitem_columns shown_columns df1 =
    Raise (KeyError
             (not_in_index
                (filter (λ l, l ∉ columns df0)
                   ["F_PARTYLN_FINAL"; "F_PARTYSUM_FINAL"])))) as Hview.
  { rewrite getitem_columns_missing; rewrite Hmiss.
    - rewrite !filter_cons, !filter_nil.
      repeat case_decide; reflexivity.
    - rewrite !filter_cons, !filter_nil.
      repeat case_decide; first [discriminate | exfalso; tauto]. }
  exists df1. split; [done|].
  unfold run_all, cell_read, cell_head, cell_index, cell_drop, fresh.
  unfold mbind, step_bind, read_excel, Survey.read_excel, get_df, set_df,
    print_out, to_excel, lift. simpl.
  rewrite Hdisk. simpl. rewrite Hrun1. simpl. by rewrite Hview.
Qed.

(** X9: when the three party columns are there but SMALG1_W99 or
    DCARS13_d_W99 is no column, the run ends in the drop cell with the
    KeyError of the first of the two that is missing; the workbook
    written by the index cell stays on disk: the whole frame with the
    index added. *)
Theorem run_all_fails_dropping (disk : gmap string DataFrame) (df0 : DataFrame) :
  disk !! input_path = Some df0 →
  wf_frame df0 →
  Forall (λ l, l ∈ columns df0)
    ["F_PARTYLN_FINAL"; "F_PARTYSUM_FINAL"; "F_PARTYSUMIDEO_FINAL"] →
  start_col ∉ columns df0 ∨ end_col ∉ columns df0 →
  ∃ df1 view,
    add_leaning_index df0 = Ok df1 ∧
    getitem_columns shown_columns df1 = Ok view ∧
    run_all (fresh disk) =
      (mkKernel (Some df1) (<[output_path := df1]> disk)
         [OutFrame (head_rows df0); OutFrame (head_rows view)],
       Raise (KeyError (if decide (start_col ∈ columns df0)
                        then end_col else start_col))).
Proof.
  intros Hdisk Hwf Hall Hmissing.
  apply Forall_cons in Hall as [Hln Hall].
  apply Forall_cons in Hall as [Hsum Hall].
  apply Forall_cons in Hall as [Hideo _].
  destruct (add_leaning_index_spec df0 Hwf Hideo)
    as (df1 & Hrun1 & Hwf1 & Hlen1 & Hcols1 & Hnew1 & Hother1).
  assert (Forall (λ l, l ∈ columns df1) shown_columns) as Hshown.
  { unfold shown_columns. repeat apply Forall_cons_2; [| | | |done].
    - by apply (index_cell_keeps_labels df0 df1).
    - by apply (index_cell_keeps_labels df0 df1).
    - by apply (index_cell_keeps_labels df0 df1).
    - rewrite Hcols1. case_decide; [done|]. apply elem_of_app. right. left. }
  pose proof (getitem_columns_ok _ _ Hshown) as Hview.
  assert (drop_unused_block df1 =
    Raise (KeyError (if decide (start_col ∈ columns df0)
                     then end_col else start_col))) as Hdrop.
  { pose proof (index_cell_keeps_labels df0 df1 start_col Hcols1) as Hs.
    pose proof (index_cell_keeps_labels df0 df1 end_col Hcols1) as He.
    destruct (decide (start_col ∈ columns df0)) as [Hd|Hd].
    - apply drop_cell_missing_end; [done | by apply Hs |].
      rewrite He by done. tauto.
    - apply drop_cell_missing_start. by rewrite Hs. }
  eexists df1, _. split; [done|]. split; [exact Hview|].
  unfold run_all, cell_read, cell_head, cell_index, cell_drop, fresh.
  unfold mbind, step_bind, read_excel, Survey.read_excel, get_df, set_df,
    print_out, to_excel, lift. simpl.
  rewrite Hdisk. simpl. rewrite Hrun1. simpl. rewrite Hview. simpl.
  by rewrite Hdrop.
Qed.

(** X16: when the workbook has rows and columns but no column
    F_PARTYSUMIDEO_FINAL, the run ends in the index cell with the
    KeyError of that label: [df] is still the frame read, only its head
    was printed, and no workbook was written. *)
Theorem run_all_fails_indexing (disk : gmap string DataFrame) (df0 : DataFrame) :
  disk !! input_path = Some df0 →
  rows df0 ≠ [] → columns df0 ≠ [] →
  "F_PARTYSUMIDEO_FINAL" ∉ columns df0 →
  run_all (fresh disk) =
    (mkKernel (Some df0) disk [OutFrame (head_rows df0)],
     Raise (KeyError "F_PARTYSUMIDEO_FINAL")).
Proof.
  intros Hdisk Hrows Hcols Hn.
  unfold run_all, cell_read, cell_head, cell_index, cell_drop, fresh.
  unfold mbind, step_bind, read_excel, Survey.read_excel, get_df, set_df,
    print_out, to_excel, lift. simpl.
  rewrite Hdisk. simpl. by rewrite missing_column_raises.
Qed.

Lemma step_bind_files {A B} (m : step A) (f : A → step B) (k : kernel)
    (p : string) :
  files (m k).1 !! p = files k !! p →
  (∀ a k', files (f a k').1 !! p = files k' !! p) →
  files ((m ≫= f) k).1 !! p = files k !! p.
Proof.
  intros Hm Hf. unfold mbind, step_bind.
  destruct (m k) as [k' [a|e]]; simpl in *; [|done].
  by rewrite Hf.
Qed.

Lemma to_excel_files df (k : kernel) (p : string) :
  p ≠ output_path → files (to_excel df output_path k).1 !! p = files k !! p.
Proof. intros Hp. simpl. by rewrite lookup_insert_ne. Qed.

(** X17: whatever the workbooks on disk are and however the run ends,
    it changes no file but the output workbook; the workbook read is
    never written. *)
Theorem run_all_writes_only_output (disk : gmap string DataFrame) (p : string) :
  p ≠ output_path →
  files (run_all (fresh disk)).1 !! p = disk !! p.
Proof.
  intros Hp. unfold run_all.
  assert (∀ k, files (cell_read k).1 !! p = files k !! p) as Hread.
  { intros k. unfold cell_read. apply step_bind_files; [done|]. done. }
  assert (∀ k, files (cell_head k).1 !! p = files k !! p) as Hhead.
  { intros k. unfold cell_head. apply step_bind_files; [|done].
    unfold get_df. by destruct (df_var k). }
  assert (∀ k, files (cell_index k).1 !! p = files k !! p) as Hindex.
  { intros k. unfold cell_index. apply step_bind_files.
    { unfold get_df. by destruct (df_var k). }
    intros df k1. apply step_bind_files; [done|].
    intros df' k2. apply step_bind_files; [done|].
    intros _ k3. apply step_bind_files; [done|].
    intros view k4. apply step_bind_files; [done|].
    intros _ k5. by apply to_excel_files. }
  assert (∀ k, files (cell_drop k).1 !! p = files k !! p) as Hdrop.
  { intros k. unfold cell_drop. apply step_bind_files.
    { unfold get_df. by destruct (df_var k). }
    intros df k1. apply step_bind_files; [done|].
    intros df' k2. apply step_bind_files; [done|].
    intros _ k3. apply step_bind_files; [done|].
    intros _ k4. by apply to_excel_files. }
  change (disk !! p) with (files (fresh disk) !! p).
  apply step_bind_files; [apply Hread|].
  intros _ k1. apply step_bind_files; [apply Hhead|].
  intros _ k2. apply step_bind_files; [apply Hindex|].
  intros _ k3. apply Hdrop.
Qed.

End SurveyCells.

(** ** The training frame of the recommendation notebook *)

Section TrainingFrame.
Import Recommender.

(** With unique integer keys on the right, a left row joins at most
    one row. *)
Lemma matches_at_most_one kl kr (movies : list (list cell)) (l : list cell) :
  (∃ x, l !! kl = Some (CInt x)) → int_column kr movies →
  NoDup ((λ r, r !! kr) <$> movies) →
  (length (filter (λ r, same_key kl kr l r) movies) ≤ 1)%nat.
Proof.
  intros Hl Hint. induction movies as [|r rs IH]; simpl; intros Hnd; [lia|].
  apply NoDup_cons in Hnd as [Hnotin Hnd].
  apply Forall_cons in Hint as [Hr Hint].
  destruct (same_key kl kr l r) eqn:Hm.
  - rewrite filter_cons_True by (by rewrite Hm).
    rewrite filter_none; [simpl; lia|].
    apply Forall_forall. intros r' Hr' Hm'. apply Hnotin.
    apply list_elem_of_fmap. exists r'. split; [|done].
    apply Is_true_true in Hm'.
    unfold int_column in Hint. rewrite Forall_forall in Hint.
    apply same_key_int in Hm; [|done|done].
    apply same_key_int in Hm'; [|done|by apply Hint]. congruence.
  - rewrite filter_cons_False by (rewrite Hm; intros []). by apply IH.
Qed.

Lemma has_movie_filter kl kr (movies : list (list cell)) (l : list cell) :
  has_movie kl kr movies l = true ↔
  filter (λ r, same_key kl kr l r) movies ≠ [].
Proof.
  unfold has_movie. rewrite bool_decide_eq_true, Exists_exists. split.
  - intros (r & Hr & Hm) Hnil.
    eapply filter_nil_not_elem_of; [exact Hnil| |exact Hr].
    by apply Is_true_true.
  - intros Hne.
    destruct (filter (λ r, same_key kl kr l r) movies) as [|r rest] eqn:Hf;
      [done|].
    assert (r ∈ filter (λ r, same_key kl kr l r) movies) as Hr
      by (rewrite Hf; left).
    apply list_elem_of_filter in Hr as [Hm Hr].
    exists r. split; [done|]. by apply Is_true_true.
Qed.

(** With unique integer keys on the right, whatever is read off the
    left part of the joined rows is read off the left rows that join. *)
Lemma joined_rows_unique {B} kl kr (h : list cell → B) (h' : list cell → B)
    (ratings movies : list (list cell)) :
  int_column kl ratings → int_column kr movies →
  NoDup ((λ r, r !! kr) <$> movies) →
  (∀ l r, l ∈ ratings → h (l ++ delete kr r) = h' l) →
  h <$> (l ← ratings;
         (λ r, l ++ delete kr r) <$> filter (λ r, same_key kl kr l r) movies)
  = h' <$> filter (λ l, has_movie kl kr movies l = true) ratings.
Proof.
  intros Hil Hir Hnd. induction ratings as [|l ls IH]; intros Hh; [done|].
  apply Forall_cons in Hil as [Hl Hil].
  change ((l :: ls) ≫= ?f) with (f l ++ (ls ≫= f)).
  rewrite fmap_app, IH by (try done; intros; apply Hh; by right).
  pose proof (matches_at_most_one kl kr movies l Hl Hir Hnd) as Hone.
  pose proof (has_movie_filter kl kr movies l) as Hhas.
  destruct (filter (λ r, same_key kl kr l r) movies) as [|r [|r' rest]] eqn:Hf.
  - rewrite filter_cons_False; [done|].
    intros Ht. by apply Hhas in Ht.
  - rewrite filter_cons_True by (by apply Hhas).
    simpl. f_equal. apply Hh. left.
  - simpl in Hone. lia.
Qed.

(** X10: when both movieId columns hold integers and the movies have
    one row per movieId, a merge that returns only filters the
    ratings: the rating parts of the merged rows are, up to their
    order, the rating rows that have a movie, each once; so the merged
    frame has at most as many rows as the ratings. *)
Theorem merge_filters_ratings (ratings movies merged : DataFrame) (kl kr : nat) :
  wf_frame ratings → wf_frame movies →
  index_of "movieId" (columns ratings) = Some kl →
  index_of "movieId" (columns movies) = Some kr →
  int_column kl (rows ratings) → int_column kr (rows movies) →
  NoDup ((λ r, r !! kr) <$> rows movies) →
  merge ratings movies "movieId" = Ok merged →
  take (length (columns ratings)) <$> rows merged
    ≡ₚ filter (λ l, has_movie kl kr (rows movies) l = true) (rows ratings) ∧
  (length (rows merged) ≤ length (rows ratings))%nat.
Proof.
  intros [_ Hrect] _ Hkl Hkr Hil Hir Hnd Hm.
  rewrite (merge_Ok _ _ _ _ _ _ Hkl Hkr Hm). simpl.
  assert (take (length (columns ratings)) <$>
            (l ← rows ratings;
             (λ r, l ++ delete kr r)
               <$> filter (λ r, same_key kl kr l r) (rows movies))
          = filter (λ l, has_movie kl kr (rows movies) l = true) (rows ratings))
    as Heq.
  { rewrite (joined_rows_unique kl kr _ id) by
      (try done; intros l r Hl; apply take_app_length';
       rewrite Forall_forall in Hrect; symmetry; by apply Hrect).
    apply list_fmap_id. }
  split; [by rewrite Heq|].
  apply (f_equal length) in Heq. rewrite length_fmap in Heq.
  rewrite Heq. apply length_filter.
Qed.

(** X11: when the frames are as read and share no label but movieId,
    both movieId columns hold integers, the ratings have userId and
    rating, and the movies have one row per movieId, the frame handed
    to the recommender has the rows, up to their order, of the three
    rating columns of the ratings that have a movie: titles and genres
    take no part in it. *)
Theorem training_frame_is_filtered_ratings
    (ratings movies : DataFrame) (kl kr : nat) :
  wf_frame ratings → wf_frame movies →
  index_of "movieId" (columns ratings) = Some kl →
  index_of "movieId" (columns movies) = Some kr →
  int_column kl (rows ratings) → int_column kr (rows movies) →
  (∀ c, c ∈ columns ratings → c ∈ columns movies → c = "movieId") →
  "userId" ∈ columns ratings → "rating" ∈ columns ratings →
  NoDup ((λ r, r !! kr) <$> rows movies) →
  ∃ data filtered,
    training_frame ratings movies = Ok data ∧
    getitem_columns rating_columns
      (mkFrame (columns ratings)
         (filter (λ l, has_movie kl kr (rows movies) l = true) (rows ratings)))
      = Ok filtered ∧
    columns data = rating_columns ∧ columns filtered = rating_columns ∧
    rows data ≡ₚ rows filtered ∧
    (length (rows data) ≤ length (rows ratings))%nat.
Proof.
  intros [Hndl Hrectl] [Hndr Hrectr] Hkl Hkr Hil Hir Hshared Huser Hrating
    Hkeys.
  assert ("movieId" ∈ columns ratings) as Hmovie.
  { apply index_of_Some in Hkl as [Hkl _]. by eapply list_elem_of_lookup_2. }
  assert (Forall (λ l, l ∈ columns ratings) rating_columns) as Hall.
  { unfold rating_columns. repeat apply Forall_cons_2; done. }
  assert (training_frame ratings movies =
    Ok (mkFrame rating_columns
          ((λ r, (λ c, default CNaN (row_series (columns ratings) r !! c))
                   <$> rating_columns)
             <$> filter (λ l, has_movie kl kr (rows movies) l = true)
                   (rows ratings)))) as Hrun.
  { unfold training_frame.
    rewrite (merge_plain _ _ _ kl kr) by done. simpl.
    rewrite getitem_columns_ok; simpl.
    2:{ eapply Forall_impl; [exact Hall|]. simpl. intros c Hc.
        apply elem_of_app. by left. }
    f_equal. f_equal.
    apply (joined_rows_unique kl kr); [done|done|done|].
    intros l r Hl. rewrite Forall_forall in Hrectl.
    rewrite !merged_row_left by (try done; by apply Hrectl). done. }
  eexists _, _. split; [exact Hrun|].
  split; [by rewrite getitem_columns_ok|]. simpl.
  split; [done|]. split; [done|]. split; [done|].
  rewrite length_fmap. apply length_filter.
Qed.

Lemma suffixed_is_no_rating_label (c sfx label : string) :
  label ∈ ["userId"; "rating"] → sfx ∈ ["_x"; "_y"] → c +:+ sfx ≠ label.
Proof.
  rewrite !elem_of_cons, !elem_of_nil.
  intros [->|[->|[]]] [->|[->|[]]];
    do 7 (destruct c as [|? c]; [by (cbn; intros [=])|]); cbn; intros [=].
Qed.

(** A label on both sides that is not the key is no label of the
    merged frame under its own name. *)
Lemma merge_columns_clash (lcols rcols : list string) (on label : string) :
  label ∈ ["userId"; "rating"] → label ≠ on →
  label ∈ lcols → label ∈ rcols →
  label ∉ merge_columns lcols rcols on.
Proof.
  intros Hlabel Hne Hl Hr. unfold merge_columns. rewrite elem_of_app.
  intros [Hin|Hin]; apply list_elem_of_fmap in Hin as (c & Heq & Hc).
  - unfold left_label in Heq. case_decide as Hd.
    + symmetry in Heq. revert Heq.
      apply suffixed_is_no_rating_label; [done | left].
    + subst c. tauto.
  - apply list_elem_of_filter in Hc as [Hcne Hc].
    unfold right_label in Heq. case_decide as Hd.
    + symmetry in Heq. revert Heq.
      apply suffixed_is_no_rating_label; [done | right; left].
    + by subst c.
Qed.

(** A label of the left frame that is the key, or no label of the
    right frame, keeps its name. *)
Lemma merge_columns_own (lcols rcols : list string) (on c : string) :
  c ∈ lcols → c = on ∨ c ∉ rcols → c ∈ merge_columns lcols rcols on.
Proof.
  intros Hc Hown. unfold merge_columns. apply elem_of_app. left.
  apply list_elem_of_fmap. exists c. split; [|done].
  unfold left_label. rewrite decide_False; [done|]. tauto.
Qed.

(** X12: when the movies too have a column userId or rating (frames as
    read, integer movieId columns), the recommender never gets its
    frame: either the merge raises MergeError, or it renames both
    copies of the label and selecting the three rating columns raises
    the KeyError whose message lists the labels the movies share, as
    in ['rating'] not in index. *)
Theorem training_frame_label_clash
    (ratings movies : DataFrame) (label : string) (kl kr : nat) :
  wf_frame ratings → wf_frame movies →
  index_of "movieId" (columns ratings) = Some kl →
  index_of "movieId" (columns movies) = Some kr →
  int_column kl (rows ratings) → int_column kr (rows movies) →
  "userId" ∈ columns ratings → "rating" ∈ columns ratings →
  label ∈ ["userId"; "rating"] → label ∈ columns movies →
  (∃ msg, training_frame ratings movies
            = Raise (OtherError "MergeError" msg)) ∨
  training_frame ratings movies =
    Raise (KeyError
             (not_in_index
                (filter (λ c, c ∈ columns movies) ["userId"; "rating"]))).
Proof.
  intros _ _ Hkl Hkr Hil Hir Huser Hrating Hlabel Hinr.
  assert ("movieId" ∈ columns ratings) as Hmovie.
  { apply index_of_Some in Hkl as [Hkl _]. by eapply list_elem_of_lookup_2. }
  unfold training_frame, merge. rewrite Hkl, Hkr, merge_check_int by done.
  destruct (_ ++ _) as [|d ds]; simpl; [right | left; eauto].
  set (mcols := merge_columns (columns ratings) (columns movies) "movieId").
  assert ("movieId" ∈ mcols) as Hm
    by (apply merge_columns_own; [done | by left]).
  assert ("userId" ∈ mcols ↔ "userId" ∉ columns movies) as Hu.
  { split.
    - intros Hin Hin'. revert Hin.
      apply merge_columns_clash; [left | done | done | done].
    - intros Hn. apply merge_columns_own; [done | by right]. }
  assert ("rating" ∈ mcols ↔ "rating" ∉ columns movies) as Hr.
  { split.
    - intros Hin Hin'. revert Hin.
      apply merge_columns_clash; [right; left | done | done | done].
    - intros Hn. apply merge_columns_own; [done | by right]. }
  assert (filter (λ l, l ∉ mcols) rating_columns
          = filter (λ c, c ∈ columns movies) ["userId"; "rating"]) as Hmiss.
  { unfold rating_columns. rewrite !filter_cons, !filter_nil.
    repeat case_decide; first [reflexivity | exfalso; tauto]. }
  rewrite getitem_columns_missing; simpl; fold mcols; rewrite Hmiss.
  - rewrite !filter_cons, !filter_nil. repeat case_decide; reflexivity.
  - rewrite !filter_cons, !filter_nil.
    rewrite !elem_of_cons, elem_of_nil in Hlabel.
    destruct Hlabel as [->|[->|[]]];
      repeat case_decide; first [discriminate | exfalso; tauto].
Qed.

End TrainingFrame.

(** ** The design frames of the regularization notebook *)

Section DesignFrames.
Import Design.

Lemma align_same (values : list cell) :
  align (length values) values = values.
Proof.
  unfold align. rewrite take_ge by done. rewrite Nat.sub_diag. simpl.
  apply app_nil_r.
Qed.

Lemma append_column {B} (g : nat → list B) (d : B) (vs : list B) :
  zip_with (λ r v, r ++ [v]) (g <$> seq 0 (length vs)) vs
    = (λ i, g i ++ [default d (vs !! i)]) <$> seq 0 (length vs).
Proof.
  apply list_eq. intros i.
  rewrite lookup_zip_with, !list_lookup_fmap.
  destruct (decide (i < length vs)%nat) as [Hlt|Hge].
  - rewrite lookup_seq_lt by done. simpl.
    destruct (lookup_lt_is_Some_2 vs i Hlt) as [v Hv]. by rewrite Hv.
  - rewrite lookup_seq_ge by lia. done.
Qed.

Lemma set_series_step (n : nat) (done_ : list (string * list cell))
    (label : string) (values : list cell) :
  length values = n → label ∉ done_.*1 →
  set_series (columns_frame n done_) label values
    = Ok (columns_frame n (done_ ++ [(label, values)])).
Proof.
  intros Hlen Hfresh. unfold set_series.
  assert ((if decide (rows (columns_frame n done_) = [])
           then replicate (length values)
                  (replicate (length (columns (columns_frame n done_))) CNaN)
           else rows (columns_frame n done_))
          = rows (columns_frame n done_)) as ->.
  { case_decide as Hrows; [|done]. rewrite Hrows.
    apply (f_equal length) in Hrows. simpl in Hrows.
    rewrite length_fmap, length_seq in Hrows.
    rewrite Hlen, Hrows. done. }
  assert (length (rows (columns_frame n done_)) = length values) as Hn.
  { simpl. by rewrite length_fmap, length_seq. }
  rewrite Hn, align_same. unfold setitem. simpl.
  rewrite decide_True by (by rewrite length_fmap, length_seq).
  apply index_of_None in Hfresh. rewrite Hfresh.
  unfold columns_frame. f_equal. f_equal.
  - by rewrite fmap_app.
  - rewrite <- Hlen.
    rewrite (append_column
      (λ i, (λ lv : string * list cell, default CNaN (lv.2 !! i)) <$> done_)
      CNaN).
    apply list_fmap_ext. intros _ i _. by rewrite fmap_app.
Qed.

Lemma set_series_first (label : string) (values : list cell) :
  set_series (mkFrame [] []) label values
    = Ok (columns_frame (length values) [(label, values)]).
Proof.
  etrans; [|apply (set_series_step (length values) [] label values);
             [done|apply not_elem_of_nil]].
  unfold set_series. simpl. f_equal.
  - f_equal. case_decide as Hrows.
    + apply (f_equal length) in Hrows.
      rewrite length_fmap, length_seq in Hrows. by rewrite Hrows.
    + apply list_eq. intros i. rewrite list_lookup_fmap.
      destruct (decide (i < length values)%nat).
      * rewrite lookup_replicate_2, lookup_seq_lt by done. done.
      * rewrite lookup_seq_ge by lia. apply lookup_replicate_None. lia.
  - f_equal. case_decide as Hrows.
    + apply (f_equal length) in Hrows.
      rewrite length_fmap, length_seq in Hrows.
      by rewrite Hrows, length_replicate.
    + by rewrite length_fmap, length_seq, length_replicate.
Qed.

Lemma set_all_step (n : nat) (done_ rest : list (string * list cell)) :
  NoDup ((done_ ++ rest).*1) →
  Forall (λ lv, length lv.2 = n) rest →
  set_all (columns_frame n done_) rest = Ok (columns_frame n (done_ ++ rest)).
Proof.
  revert done_. induction rest as [|[label values] rest IH];
    intros done_ Hnd Hlen; simpl.
  - by rewrite app_nil_r.
  - apply Forall_cons in Hlen as [Hv Hlen]. simpl in Hv.
    rewrite set_series_step; [simpl| done |].
    + rewrite IH; [|by rewrite <- app_assoc|done].
      by rewrite <- app_assoc.
    + rewrite fmap_app in Hnd. apply NoDup_app in Hnd as (_ & Hdisj & _).
      intros Hin. apply (Hdisj label Hin). left.
Qed.

Lemma design_columns_frame (label : string) (values : list cell)
    (rest : list (string * list cell)) :
  NoDup (((label, values) :: rest).*1) →
  Forall (λ lv, length lv.2 = length values) rest →
  design ((label, values) :: rest)
    = Ok (columns_frame (length values) ((label, values) :: rest)).
Proof.
  intros Hnd Hlen. unfold design. simpl.
  rewrite set_series_first. simpl.
  by rewrite (set_all_step (length values) [(label, values)] rest).
Qed.

Lemma columns_frame_wf (n : nat) (series : list (string * list cell)) :
  NoDup (series.*1) → wf_frame (columns_frame n series).
Proof.
  intros Hnd. split; [done|]. simpl.
  apply Forall_fmap, Forall_true. intros i. simpl.
  by rewrite !length_fmap.
Qed.

Lemma columns_frame_at (n : nat) (series : list (string * list cell))
    (i k : nat) (label : string) (values : list cell) :
  NoDup (series.*1) → length values = n →
  series !! k = Some (label, values) →
  frame_at (columns_frame n series) i label = values !! i.
Proof.
  intros Hnd Hlen Hk. unfold frame_at. simpl.
  rewrite list_lookup_fmap.
  destruct (decide (i < n)%nat) as [Hlt|Hge].
  - rewrite lookup_seq_lt by done. simpl.
    rewrite (index_of_lookup _ k label Hnd)
      by (by rewrite list_lookup_fmap, Hk).
    simpl. rewrite list_lookup_fmap, Hk. simpl.
    destruct (lookup_lt_is_Some_2 values i) as [v Hv]; [lia|].
    by rewrite Hv.
  - rewrite lookup_seq_ge by lia. simpl.
    symmetry. apply lookup_ge_None. lia.
Qed.

(** X13: a design frame built from an empty frame by assigning Series
    of one length under distinct labels has those labels in the order
    of the assignments, one row per position of the Series, and under
    each label, in each row, the value of its Series at that position;
    it is rectangular with unique labels. *)
Theorem design_holds_the_series (series : list (string * list cell)) (n : nat) :
  series ≠ [] →
  NoDup (series.*1) →
  Forall (λ lv, length lv.2 = n) series →
  ∃ df, design series = Ok df ∧
    wf_frame df ∧
    columns df = series.*1 ∧
    length (rows df) = n ∧
    ∀ i k label values,
      series !! k = Some (label, values) →
      frame_at df i label = values !! i.
Proof.
  intros Hne Hnd Hlen.
  destruct series as [|[label values] rest]; [done|].
  apply Forall_cons in Hlen as [Hv Hlen]. simpl in Hv. subst n.
  rewrite design_columns_frame by done.
  eexists. split; [done|]. split; [by apply columns_frame_wf|].
  split; [done|]. split; [simpl; by rewrite length_fmap, length_seq|].
  intros i k l vs Hk. apply (columns_frame_at _ _ i k); [done| |done].
  destruct k as [|k]; simpl in Hk; [by injection Hk as <- <-|].
  rewrite Forall_lookup in Hlen. by apply (Hlen _ _ Hk).
Qed.

Lemma drop_first_column (n : nat) (label : string) (values : list cell)
    (rest : list (string * list cell)) :
  NoDup (((label, values) :: rest).*1) →
  drop_columns [label] (columns_frame n ((label, values) :: rest))
    = Ok (columns_frame n rest).
Proof.
  intros Hnd.
  pose proof (drop_columns_block
    (columns_frame n ((label, values) :: rest)) 0 1
    (columns_frame_wf _ _ Hnd)) as Hdrop.
  simpl in Hdrop. rewrite take_0 in Hdrop. simpl. rewrite Hdrop.
  unfold columns_frame. f_equal. f_equal. simpl.
  rewrite <- list_fmap_compose. apply list_fmap_ext. intros _ i _. simpl.
  by rewrite drop_0.
Qed.

Lemma regressors_labels (x : nat → list cell) :
  (("Constant", ones) :: regressors x).*1 =
    [ "Constant"; "X1"; "X2"; "X3"; "X4"; "X5"; "X6";
      "X7"; "X8"; "X9"; "X10"; "X11"; "X12" ].
Proof. reflexivity. Qed.

Lemma regressors_lengths (x : nat → list cell) :
  (∀ i, length (x i) = 100%nat) →
  Forall (λ lv, length lv.2 = length ones) (regressors x).
Proof.
  intros Hx. unfold regressors, ones. rewrite length_replicate.
  repeat apply Forall_cons_2; try apply Hx. done.
Qed.

(** X14: with arrays of 100 draws each, the frame given to the Lasso
    and Ridge fits, built with the constant column and then stripped of
    it, is the frame built from the twelve regressors alone: 100 rows,
    the labels X1 to X12 in order, under Xk the array x_k. *)
Theorem penalized_design_is_regressors (x : nat → list cell) :
  (∀ i, length (x i) = 100%nat) →
  X_penalized x = design (regressors x) ∧
  X_penalized x = Ok (columns_frame 100 (regressors x)).
Proof.
  intros Hx.
  assert (NoDup ((("Constant", ones) :: regressors x).*1)) as Hnd
    by (rewrite regressors_labels; compute_done).
  assert (X_penalized x = Ok (columns_frame 100 (regressors x))) as Hrun.
  { unfold X_penalized, X_ext.
    rewrite design_columns_frame by (try done; by apply regressors_lengths).
    simpl. by rewrite drop_first_column. }
  split; [|done]. rewrite Hrun. symmetry.
  unfold regressors at 1.
  rewrite design_columns_frame; simpl.
  - by rewrite (Hx 1%nat).
  - compute_done.
  - rewrite (Hx 1%nat).
    pose proof (regressors_lengths x Hx) as Hlen.
    unfold ones in Hlen. rewrite length_replicate in Hlen.
    by apply Forall_cons in Hlen as [_ Hlen].
Qed.

Lemma restrict_columns_frame (n : nat) (pre post : list (string * list cell)) :
  NoDup ((pre ++ post).*1) →
  getitem_columns (pre.*1) (columns_frame n (pre ++ post))
    = Ok (columns_frame n pre).
Proof.
  intros Hnd. rewrite getitem_columns_ok.
  2:{ apply Forall_forall. intros c Hc. simpl.
      rewrite fmap_app. apply elem_of_app. by left. }
  unfold columns_frame. f_equal. f_equal. simpl.
  rewrite <- list_fmap_compose. apply list_fmap_ext. intros _ i _. simpl.
  rewrite <- list_fmap_compose. apply list_fmap_ext. intros k lv Hk. simpl.
  rewrite row_series_lookup.
  rewrite (index_of_lookup _ k lv.1 Hnd).
  2:{ rewrite list_lookup_fmap, lookup_app_l_Some with (x := lv); done. }
  simpl. rewrite list_lookup_fmap.
  by rewrite (lookup_app_l_Some _ _ _ _ Hk).
Qed.

(** X15: with arrays of 100 draws each, both design frames are built,
    and the first is the second restricted to the constant and the
    first six regressors: the extended regression sees the data of the
    first, plus six columns. *)
Theorem ols_design_within_extended (x : nat → list cell) :
  (∀ i, length (x i) = 100%nat) →
  ∃ ols ext, X_ols x = Ok ols ∧ X_ext x = Ok ext ∧
    columns ols = take 7 (columns ext) ∧
    getitem_columns (columns ols) ext = Ok ols.
Proof.
  intros Hx.
  assert (NoDup ((("Constant", ones) :: regressors x).*1)) as Hnd
    by (rewrite regressors_labels; compute_done).
  pose proof (regressors_lengths x Hx) as Hlen.
  assert (regressors x = take 6 (regressors x) ++ drop 6 (regressors x))
    as Hsplit by (by rewrite take_drop).
  assert (NoDup ((("Constant", ones) :: take 6 (regressors x)).*1)) as Hnd6
    by compute_done.
  assert (Forall (λ lv, length lv.2 = length ones) (take 6 (regressors x)))
    as Hlen6.
  { rewrite Hsplit in Hlen. by apply Forall_app in Hlen as [? _]. }
  unfold X_ols, X_ext.
  rewrite (design_columns_frame _ _ (take 6 (regressors x)) Hnd6 Hlen6).
  rewrite (design_columns_frame _ _ (regressors x) Hnd Hlen).
  eexists _, _. split; [done|]. split; [done|]. split; [done|].
  apply (restrict_columns_frame (length ones)
           (("Constant", ones) :: take 6 (regressors x))
           (drop 6 (regressors x))).
  exact Hnd.
Qed.

End DesignFrames.

(** ** The cells run on small frames *)

Section Runs.
Import Survey SurveyRun Recommender Design.

Ltac frame_wf := split; [compute_done | repeat constructor].

Lemma index_cell_frame_effect_witness :
  wf_frame Samples.survey ∧
  "F_PARTYSUMIDEO_FINAL" ∈ columns Samples.survey ∧
  add_leaning_index Samples.survey = Ok Samples.survey_indexed ∧
  length (rows Samples.survey_indexed) = length (rows Samples.survey).
Proof.
  assert (wf_frame Samples.survey) as Hwf by frame_wf.
  assert ("F_PARTYSUMIDEO_FINAL" ∈ columns Samples.survey) as Hin
    by compute_done.
  assert (add_leaning_index Samples.survey = Ok Samples.survey_indexed)
    as Hrun by (vm_compute; reflexivity).
  split; [exact Hwf|]. split; [exact Hin|]. split; [exact Hrun|].
  exact (proj1 (proj2 (index_cell_frame_effect _ _ Hwf Hin Hrun))).
Defined.

Lemma index_cell_idempotent_witness :
  wf_frame Samples.survey ∧
  "F_PARTYSUMIDEO_FINAL" ∈ columns Samples.survey ∧
  add_leaning_index Samples.survey = Ok Samples.survey_indexed ∧
  add_leaning_index Samples.survey_indexed = Ok Samples.survey_indexed.
Proof.
  assert (wf_frame Samples.survey) as Hwf by frame_wf.
  assert ("F_PARTYSUMIDEO_FINAL" ∈ columns Samples.survey) as Hin
    by compute_done.
  assert (add_leaning_index Samples.survey = Ok Samples.survey_indexed)
    as Hrun by (vm_compute; reflexivity).
  split; [exact Hwf|]. split; [exact Hin|]. split; [exact Hrun|].
  exact (index_cell_idempotent _ _ Hwf Hin Hrun).
Defined.

Lemma drop_cell_outcome_witness :
  wf_frame Samples.survey_no_block ∧
  (start_col ∉ columns Samples.survey_no_block) ∧
  drop_unused_block Samples.survey_no_block = Raise (KeyError start_col).
Proof.
  assert (wf_frame Samples.survey_no_block) as Hwf by frame_wf.
  assert (start_col ∉ columns Samples.survey_no_block) as Hn by compute_done.
  split; [exact Hwf|]. split; [exact Hn|].
  exact (proj1 (proj2 (drop_cell_outcome _ Hwf)) Hn).
Defined.

Lemma drop_cell_reversed_labels_witness :
  wf_frame Samples.survey_reversed ∧
  columns Samples.survey_reversed !! 2%nat = Some start_col ∧
  columns Samples.survey_reversed !! 1%nat = Some end_col ∧
  drop_unused_block Samples.survey_reversed = Ok Samples.survey_reversed.
Proof.
  assert (wf_frame Samples.survey_reversed) as Hwf by frame_wf.
  split; [exact Hwf|]. split; [reflexivity|]. split; [reflexivity|].
  apply (drop_cell_reversed_labels _ 2 1 Hwf); [reflexivity|reflexivity|lia].
Defined.

Lemma drop_cell_second_run_witness :
  wf_frame Samples.survey_indexed ∧
  columns Samples.survey_indexed !! 1%nat = Some start_col ∧
  columns Samples.survey_indexed !! 3%nat = Some end_col ∧
  drop_unused_block Samples.survey_indexed = Ok Samples.survey_dropped ∧
  drop_unused_block Samples.survey_dropped = Raise (KeyError start_col).
Proof.
  assert (wf_frame Samples.survey_indexed) as Hwf by frame_wf.
  assert (drop_unused_block Samples.survey_indexed = Ok Samples.survey_dropped)
    as Hrun by (vm_compute; reflexivity).
  split; [exact Hwf|]. split; [reflexivity|]. split; [reflexivity|].
  split; [exact Hrun|].
  apply (drop_cell_second_run _ _ 1 3 Hwf);
    [reflexivity | reflexivity | lia | exact Hrun].
Defined.

Lemma index_then_drop_witness :
  wf_frame Samples.survey ∧
  "F_PARTYSUMIDEO_FINAL" ∈ columns Samples.survey ∧
  ("political_leaning_index" ∉ columns Samples.survey) ∧
  ∃ df1 df2,
    add_leaning_index Samples.survey = Ok df1 ∧
    drop_unused_block df1 = Ok df2 ∧
    columns df2 = columns Samples.survey_dropped.
Proof.
  assert (wf_frame Samples.survey) as Hwf by frame_wf.
  assert ("F_PARTYSUMIDEO_FINAL" ∈ columns Samples.survey) as Hin
    by compute_done.
  assert ("political_leaning_index" ∉ columns Samples.survey) as Hfresh
    by compute_done.
  split; [exact Hwf|]. split; [exact Hin|]. split; [exact Hfresh|].
  destruct (index_then_drop Samples.survey 1 3 Hwf Hin Hfresh)
    as (df1 & df2 & H1 & H2 & Hcols & _); [reflexivity|reflexivity|lia|].
  exists df1, df2. split; [exact H1|]. split; [exact H2|]. exact Hcols.
Defined.

Lemma run_all_succeeds_witness :
  let disk : gmap string DataFrame := {[ input_path := Samples.survey ]} in
  disk !! input_path = Some Samples.survey ∧
  wf_frame Samples.survey ∧
  ∃ k, run_all (fresh disk) = (k, Ok ()) ∧
       files k !! input_path = Some Samples.survey.
Proof.
  intros disk.
  assert (disk !! input_path = Some Samples.survey) as Hdisk
    by apply lookup_singleton_eq.
  assert (wf_frame Samples.survey) as Hwf by frame_wf.
  split; [exact Hdisk|]. split; [exact Hwf|].
  destruct (run_all_succeeds disk Samples.survey 1 3 Hdisk Hwf)
    as (df1 & df2 & view & _ & _ & _ & Hrun & Hkept);
    [compute_done | reflexivity | reflexivity | lia |].
  eexists. split; [exact Hrun | exact Hkept].
Defined.

Lemma run_all_fails_showing_witness :
  let disk : gmap string DataFrame :=
    {[ input_path := Samples.survey_no_party ]} in
  disk !! input_path = Some Samples.survey_no_party ∧
  wf_frame Samples.survey_no_party ∧
  ("F_PARTYLN_FINAL" ∉ columns Samples.survey_no_party) ∧
  ∃ k, run_all (fresh disk)
         = (k, Raise (KeyError "['F_PARTYLN_FINAL'] not in index")) ∧
       files k = disk.
Proof.
  intros disk.
  assert (disk !! input_path = Some Samples.survey_no_party) as Hdisk
    by apply lookup_singleton_eq.
  assert (wf_frame Samples.survey_no_party) as Hwf by frame_wf.
  assert ("F_PARTYLN_FINAL" ∉ columns Samples.survey_no_party) as Hn
    by compute_done.
  split; [exact Hdisk|]. split; [exact Hwf|]. split; [exact Hn|].
  destruct (run_all_fails_showing disk Samples.survey_no_party Hdisk Hwf)
    as (df1 & _ & Hrun); [compute_done | by left |].
  eexists. split; [exact Hrun | reflexivity].
Defined.

Lemma run_all_fails_dropping_witness :
  let disk : gmap string DataFrame :=
    {[ input_path := Samples.survey_no_block ]} in
  disk !! input_path = Some Samples.survey_no_block ∧
  wf_frame Samples.survey_no_block ∧
  (start_col ∉ columns Samples.survey_no_block) ∧
  ∃ k, run_all (fresh disk) = (k, Raise (KeyError start_col)) ∧
       is_Some (files k !! output_path).
Proof.
  intros disk.
  assert (disk !! input_path = Some Samples.survey_no_block) as Hdisk
    by apply lookup_singleton_eq.
  assert (wf_frame Samples.survey_no_block) as Hwf by frame_wf.
  assert (start_col ∉ columns Samples.survey_no_block) as Hn by compute_done.
  split; [exact Hdisk|]. split; [exact Hwf|]. split; [exact Hn|].
  destruct (run_all_fails_dropping disk Samples.survey_no_block Hdisk Hwf)
    as (df1 & view & _ & _ & Hrun); [compute_done | by left |].
  rewrite decide_False in Hrun by exact Hn.
  eexists. split; [exact Hrun|]. simpl.
  rewrite lookup_insert_eq. eauto.
Defined.

Lemma run_all_fails_indexing_witness :
  let df0 := mkFrame ["QKEY"; "F_IDEO"] [[CInt 100260; CStr "Moderate"]] in
  let disk : gmap string DataFrame := {[ input_path := df0 ]} in
  disk !! input_path = Some df0 ∧
  ("F_PARTYSUMIDEO_FINAL" ∉ columns df0) ∧
  run_all (fresh disk) =
    (mkKernel (Some df0) disk [OutFrame (head_rows df0)],
     Raise (KeyError "F_PARTYSUMIDEO_FINAL")).
Proof.
  intros df0 disk.
  assert (disk !! input_path = Some df0) as Hdisk by apply lookup_singleton_eq.
  assert ("F_PARTYSUMIDEO_FINAL" ∉ columns df0) as Hn by compute_done.
  split; [exact Hdisk|]. split; [exact Hn|].
  apply (run_all_fails_indexing disk df0 Hdisk); [discriminate|discriminate|].
  exact Hn.
Defined.

Lemma run_all_writes_only_output_witness :
  let disk : gmap string DataFrame := {[ input_path := Samples.survey ]} in
  input_path ≠ output_path ∧
  files (run_all (fresh disk)).1 !! input_path = Some Samples.survey.
Proof.
  intros disk.
  assert (input_path ≠ output_path) as Hp by (vm_compute; discriminate).
  split; [exact Hp|].
  rewrite (run_all_writes_only_output disk input_path Hp).
  apply lookup_singleton_eq.
Defined.

Lemma sample_int_keys :
  int_column 1 (rows Samples.ratings) ∧ int_column 0 (rows Samples.movies) ∧
  int_column 0 (rows Samples.rated_movies).
Proof. repeat split; repeat constructor; eexists; reflexivity. Defined.

Lemma merge_filters_ratings_witness :
  wf_frame Samples.ratings ∧ wf_frame Samples.movies ∧
  index_of "movieId" (columns Samples.ratings) = Some 1%nat ∧
  index_of "movieId" (columns Samples.movies) = Some 0%nat ∧
  int_column 1 (rows Samples.ratings) ∧ int_column 0 (rows Samples.movies) ∧
  NoDup ((λ r, r !! 0%nat) <$> rows Samples.movies) ∧
  merge Samples.ratings Samples.movies "movieId" = Ok Samples.merged ∧
  (length (rows Samples.merged) ≤ length (rows Samples.ratings))%nat.
Proof.
  assert (wf_frame Samples.ratings) as Hwl by frame_wf.
  assert (wf_frame Samples.movies) as Hwr by frame_wf.
  destruct sample_int_keys as (Hil & Hir & _).
  assert (NoDup ((λ r, r !! 0%nat) <$> rows Samples.movies)) as Hnd
    by compute_done.
  assert (merge Samples.ratings Samples.movies "movieId" = Ok Samples.merged)
    as Hm by (vm_compute; reflexivity).
  split; [exact Hwl|]. split; [exact Hwr|].
  split; [reflexivity|]. split; [reflexivity|].
  split; [exact Hil|]. split; [exact Hir|].
  split; [exact Hnd|]. split; [exact Hm|].
  exact (proj2 (merge_filters_ratings Samples.ratings Samples.movies
                  Samples.merged 1 0 Hwl Hwr eq_refl eq_refl Hil Hir Hnd Hm)).
Defined.

Lemma sample_frames_share_key (c : string) :
  c ∈ columns Samples.ratings → c ∈ columns Samples.movies → c = "movieId".
Proof.
  simpl. rewrite !elem_of_cons, !elem_of_nil.
  intros [->|[->|[->|[->|[]]]]] [?|[?|[?|[]]]]; first [done | discriminate].
Defined.

Lemma training_frame_is_filtered_ratings_witness :
  wf_frame Samples.ratings ∧ wf_frame Samples.movies ∧
  int_column 1 (rows Samples.ratings) ∧ int_column 0 (rows Samples.movies) ∧
  NoDup ((λ r, r !! 0%nat) <$> rows Samples.movies) ∧
  ∃ data, training_frame Samples.ratings Samples.movies = Ok data ∧
          columns data = rating_columns ∧
          (length (rows data) ≤ length (rows Samples.ratings))%nat.
Proof.
  assert (wf_frame Samples.ratings) as Hwl by frame_wf.
  assert (wf_frame Samples.movies) as Hwr by frame_wf.
  destruct sample_int_keys as (Hil & Hir & _).
  assert (NoDup ((λ r, r !! 0%nat) <$> rows Samples.movies)) as Hnd
    by compute_done.
  split; [exact Hwl|]. split; [exact Hwr|].
  split; [exact Hil|]. split; [exact Hir|]. split; [exact Hnd|].
  destruct (training_frame_is_filtered_ratings Samples.ratings Samples.movies
              1 0 Hwl Hwr eq_refl eq_refl Hil Hir
              sample_frames_share_key ltac:(compute_done)
              ltac:(compute_done) Hnd)
    as (data & filtered & Hrun & _ & Hcols & _ & _ & Hlen).
  exists data. split; [exact Hrun|]. split; [exact Hcols | exact Hlen].
Defined.

Lemma training_frame_label_clash_witness :
  wf_frame Samples.ratings ∧ wf_frame Samples.rated_movies ∧
  int_column 1 (rows Samples.ratings) ∧
  int_column 0 (rows Samples.rated_movies) ∧
  "rating" ∈ columns Samples.ratings ∧
  "rating" ∈ columns Samples.rated_movies ∧
  training_frame Samples.ratings Samples.rated_movies
    = Raise (KeyError "['rating'] not in index").
Proof.
  assert (wf_frame Samples.ratings) as Hwl by frame_wf.
  assert (wf_frame Samples.rated_movies) as Hwr by frame_wf.
  destruct sample_int_keys as (Hil & _ & Hir).
  assert ("rating" ∈ columns Samples.ratings) as Hl by compute_done.
  assert ("rating" ∈ columns Samples.rated_movies) as Hr by compute_done.
  split; [exact Hwl|]. split; [exact Hwr|].
  split; [exact Hil|]. split; [exact Hir|].
  split; [exact Hl|]. split; [exact Hr|].
  destruct (training_frame_label_clash Samples.ratings Samples.rated_movies
              "rating" 1 0 Hwl Hwr eq_refl eq_refl Hil Hir
              ltac:(compute_done) Hl ltac:(compute_done) Hr)
    as [[msg Hclash]|Hkey].
  - vm_compute in Hclash. discriminate Hclash.
  - rewrite Hkey. vm_compute. reflexivity.
Defined.

Lemma design_holds_the_series_witness :
  NoDup (Samples.two_series.*1) ∧
  Forall (λ lv, length lv.2 = 2%nat) Samples.two_series ∧
  ∃ df, design Samples.two_series = Ok df ∧ columns df = ["Constant"; "X1"].
Proof.
  assert (NoDup (Samples.two_series.*1)) as Hnd by compute_done.
  assert (Forall (λ lv, length lv.2 = 2%nat) Samples.two_series) as Hlen
    by (repeat constructor).
  split; [exact Hnd|]. split; [exact Hlen|].
  destruct (design_holds_the_series Samples.two_series 2) as
    (df & Hrun & _ & Hcols & _); [discriminate | exact Hnd | exact Hlen |].
  exists df. split; [exact Hrun | exact Hcols].
Defined.

Lemma flat_draws_length (i : nat) : length (Samples.flat_draws i) = 100%nat.
Proof. apply length_replicate. Defined.

Lemma penalized_design_is_regressors_witness :
  (∀ i, length (Samples.flat_draws i) = 100%nat) ∧
  X_penalized Samples.flat_draws = design (regressors Samples.flat_draws).
Proof.
  split; [exact flat_draws_length|].
  exact (proj1 (penalized_design_is_regressors _ flat_draws_length)).
Defined.

Lemma ols_design_within_extended_witness :
  (∀ i, length (Samples.flat_draws i) = 100%nat) ∧
  ∃ ols ext, X_ols Samples.flat_draws = Ok ols ∧
    X_ext Samples.flat_draws = Ok ext ∧
    columns ols = take 7 (columns ext) ∧
    getitem_columns (columns ols) ext = Ok ols.
Proof.
  split; [exact flat_draws_length|].
  exact (ols_design_within_extended _ flat_draws_length).
Defined.

End Runs.
